(** * Field contracts of the EIA dashboard data model (app/models.py)

    The module under study is a catalog of SQLModel classes.  Each class is
    a list of annotated attributes, most of them carrying a [Field(...)]
    descriptor with a default and with constraints ([ge], [le],
    [max_length], [decimal_places], [max_digits], [foreign_key], ...).

    The embedding keeps that shape: a class is a [model], i.e. a name, a
    table name and the list of its [field] declarations, transcribed line
    by line.  There are two ways from keyword arguments to an instance.

    - [validate] is [model_validate]: every declared field is looked up in
      the keyword dictionary, an absent one takes its default, a present
      one is checked against its annotation and its constraints, and all
      failures are collected.  [accepts] and [rejects] speak of it.
    - [construct] is the constructor, a call of the class.  For a class
      declared with [table=False] it is validation; for a class declared
      with [table=True] it checks nothing and stores what is passed.

    Raw values are Python objects already of some type; conversions
    between types are not part of the model, and a value of another type
    than the annotated one is a type error of validation.  The time read by
    [default_factory=datetime.utcnow] is an explicit argument, one reading
    for each attribute it fills. *)

From Stdlib Require Import ZArith NArith Lia Ascii.
From stdpp Require Import gmap strings list fin_maps.

Local Open Scope Z_scope.
Local Open Scope string_scope.

(** ** Enumerations *)

Inductive DataSourceType := STEO | PSM | WEEKLY.

Inductive ProductType :=
  CRUDE_OIL | GASOLINE | DISTILLATE | RESIDUAL | JET_FUEL | PROPANE | NATURAL_GAS.

Inductive DispositionType :=
  PRODUCTION | IMPORTS | EXPORTS | STOCK_CHANGE | REFINERY_INPUT | DEMAND.

Inductive ScenarioType :=
  BASELINE | HURRICANE | SUPPLY_SHOCK | DEMAND_SURGE | REFINERY_OUTAGE.

Inductive SeverityLevel := LOW | MODERATE | HIGH | EXTREME.

(** A [str]-based [Enum]: its members in declaration order and the string
    each one is equal to. *)
Class StrEnum (A : Type) := {
  members : list A;
  enum_value : A -> string
}.

#[export] Instance DataSourceType_enum : StrEnum DataSourceType := {|
  members := [STEO; PSM; WEEKLY];
  enum_value m := match m with
                  | STEO => "STEO" | PSM => "PSM" | WEEKLY => "WEEKLY"
                  end
|}.

#[export] Instance ProductType_enum : StrEnum ProductType := {|
  members := [CRUDE_OIL; GASOLINE; DISTILLATE; RESIDUAL; JET_FUEL; PROPANE;
              NATURAL_GAS];
  enum_value m := match m with
                  | CRUDE_OIL => "CRUDE_OIL" | GASOLINE => "GASOLINE"
                  | DISTILLATE => "DISTILLATE" | RESIDUAL => "RESIDUAL"
                  | JET_FUEL => "JET_FUEL" | PROPANE => "PROPANE"
                  | NATURAL_GAS => "NATURAL_GAS"
                  end
|}.

#[export] Instance DispositionType_enum : StrEnum DispositionType := {|
  members := [PRODUCTION; IMPORTS; EXPORTS; STOCK_CHANGE; REFINERY_INPUT;
              DEMAND];
  enum_value m := match m with
                  | PRODUCTION => "PRODUCTION" | IMPORTS => "IMPORTS"
                  | EXPORTS => "EXPORTS" | STOCK_CHANGE => "STOCK_CHANGE"
                  | REFINERY_INPUT => "REFINERY_INPUT" | DEMAND => "DEMAND"
                  end
|}.

#[export] Instance ScenarioType_enum : StrEnum ScenarioType := {|
  members := [BASELINE; HURRICANE; SUPPLY_SHOCK; DEMAND_SURGE;
              REFINERY_OUTAGE];
  enum_value m := match m with
                  | BASELINE => "BASELINE" | HURRICANE => "HURRICANE"
                  | SUPPLY_SHOCK => "SUPPLY_SHOCK"
                  | DEMAND_SURGE => "DEMAND_SURGE"
                  | REFINERY_OUTAGE => "REFINERY_OUTAGE"
                  end
|}.

#[export] Instance SeverityLevel_enum : StrEnum SeverityLevel := {|
  members := [LOW; MODERATE; HIGH; EXTREME];
  enum_value m := match m with
                  | LOW => "LOW" | MODERATE => "MODERATE" | HIGH => "HIGH"
                  | EXTREME => "EXTREME"
                  end
|}.

(** The five enumeration classes, as they appear in annotations. *)
Inductive enum :=
  | EDataSourceType | EProductType | EDispositionType | EScenarioType
  | ESeverityLevel.

Definition values_of (A : Type) `{StrEnum A} : list string :=
  map enum_value members.

Definition enum_values (e : enum) : list string :=
  match e with
  | EDataSourceType => values_of DataSourceType
  | EProductType => values_of ProductType
  | EDispositionType => values_of DispositionType
  | EScenarioType => values_of ScenarioType
  | ESeverityLevel => values_of SeverityLevel
  end.

#[export] Instance enum_eq_dec : EqDecision enum.
Proof. solve_decision. Defined.

(** ** Python values *)

(** [decimal.Decimal]: a finite number is sign, coefficient and exponent,
    standing for (-1)^sign * coefficient * 10^exponent; the coefficient's
    digits are the digit tuple of [as_tuple()]. *)
Inductive Decimal :=
  | Dec (sign : bool) (coeff : N) (exp : Z)
  | DecInfinity (sign : bool)
  | DecNaN.

(** [datetime.date] and [datetime.datetime]. *)
Record date := mkdate { year : Z; month : Z; day : Z }.

Record datetime := mkdatetime { dt_date : date; dt_microsecond_of_day : N }.

(** What [datetime.utcnow()] returns when it is called to fill the
    attribute of a given name: the factory is called once for each
    attribute left out, so two attributes need not get the same time. *)
Definition clock := string -> datetime.

#[warnings="-register-all"]
Inductive value :=
  | VNone
  | VBool (b : bool)
  | VInt (z : Z)
  | VStr (s : string)
  | VDecimal (d : Decimal)
  | VDate (d : date)
  | VDatetime (t : datetime)
  | VEnum (e : enum) (s : string)
  | VList (l : list value)
  | VDict (kv : list (string * value)).

(** [Decimal("0")] and [Decimal("1.0")], the two decimal defaults used. *)
Definition Decimal_0 : Decimal := Dec false 0 0.
Definition Decimal_1_0 : Decimal := Dec false 10 (-1).

(** Order on dates, as Python compares them. *)
Definition date_ltb (a b : date) : bool :=
  (year a <? year b)%Z
  || ((year a =? year b)%Z
      && ((month a <? month b)%Z
          || ((month a =? month b)%Z && (day a <? day b)%Z))).

(** ** Decimal digits *)

(** Number of digits of the digit tuple of a coefficient; zero has the one
    digit 0. *)
Fixpoint num_digits_fuel (fuel : nat) (n : N) : nat :=
  match fuel with
  | O => 1
  | S fuel' => if (n <? 10)%N then 1%nat
               else S (num_digits_fuel fuel' (n / 10)%N)
  end.

Definition num_digits (n : N) : nat :=
  num_digits_fuel (N.to_nat (N.size n)) n.

(** Removing the trailing zeros of a non-zero coefficient, each one raising
    the exponent by one. *)
Fixpoint strip_zeros (fuel : nat) (c : N) (e : Z) : N * Z :=
  match fuel with
  | O => (c, e)
  | S fuel' => if (c mod 10 =? 0)%N then strip_zeros fuel' (c / 10)%N (e + 1)
               else (c, e)
  end.

(** [Decimal.normalize()] on a finite number: a zero becomes [0E0], any
    other number loses its trailing zeros. *)
Definition normalize (d : Decimal) : Decimal :=
  match d with
  | Dec s c e =>
      if (c =? 0)%N then Dec s 0 0
      else let '(c', e') := strip_zeros (N.to_nat (N.size c)) c e in
           Dec s c' e'
  | _ => d
  end.

(** Decimal places and total digits of a finite number, trailing decimal
    zeros not counted: a non-negative exponent adds that many zeros to the
    digits and leaves no decimals; a negative one gives that many decimals,
    and at least that many digits. *)
Definition decimal_digits_info (d : Decimal) : option (nat * nat) :=
  match normalize d with
  | Dec _ c e =>
      if (0 <=? e)%Z then Some (O, (num_digits c + Z.to_nat e)%nat)
      else let decimals := Z.to_nat (- e) in
           Some (decimals, Nat.max (num_digits c) decimals)
  | _ => None
  end.

(** ** Field declarations *)

(** The annotations that occur in the module. *)
Inductive annotation :=
  | Int | Str | Bool | TDecimal | TDate | TDatetime
  | Enum (e : enum)
  | ListStr                       (* List[str] *)
  | DictStrAny                    (* Dict[str, Any] *)
  | Optional (a : annotation).

(** What stands for an attribute that is not passed. *)
Inductive default_spec :=
  | Required
  | Default (v : value)
  | DefaultFactoryUtcnow.         (* default_factory=datetime.utcnow *)

Record field := mkfield {
  fname : string;
  ann : annotation;
  default : default_spec;
  ge : option Z;
  le : option Z;
  max_length : option nat;
  decimal_places : option nat;
  max_digits : option nat;
  primary_key : bool;
  foreign_key : option string;
  index : bool;
  unique : bool;
  sa_column_json : bool
}.

(** [name: annotation] with no descriptor, and the keyword arguments of
    [Field(...)] as updates applied to it from left to right. *)
Definition attr (n : string) (a : annotation) : field :=
  mkfield n a Required None None None None None false None false false false.

Definition set_default (v : value) (f : field) : field :=
  mkfield (fname f) (ann f) (Default v) (ge f) (le f) (max_length f)
    (decimal_places f) (max_digits f) (primary_key f) (foreign_key f)
    (index f) (unique f) (sa_column_json f).
Definition set_default_factory_utcnow (f : field) : field :=
  mkfield (fname f) (ann f) DefaultFactoryUtcnow (ge f) (le f) (max_length f)
    (decimal_places f) (max_digits f) (primary_key f) (foreign_key f)
    (index f) (unique f) (sa_column_json f).
Definition set_ge (z : Z) (f : field) : field :=
  mkfield (fname f) (ann f) (default f) (Some z) (le f) (max_length f)
    (decimal_places f) (max_digits f) (primary_key f) (foreign_key f)
    (index f) (unique f) (sa_column_json f).
Definition set_le (z : Z) (f : field) : field :=
  mkfield (fname f) (ann f) (default f) (ge f) (Some z) (max_length f)
    (decimal_places f) (max_digits f) (primary_key f) (foreign_key f)
    (index f) (unique f) (sa_column_json f).
Definition set_max_length (n : nat) (f : field) : field :=
  mkfield (fname f) (ann f) (default f) (ge f) (le f) (Some n)
    (decimal_places f) (max_digits f) (primary_key f) (foreign_key f)
    (index f) (unique f) (sa_column_json f).
Definition set_decimal_places (n : nat) (f : field) : field :=
  mkfield (fname f) (ann f) (default f) (ge f) (le f) (max_length f)
    (Some n) (max_digits f) (primary_key f) (foreign_key f)
    (index f) (unique f) (sa_column_json f).
Definition set_max_digits (n : nat) (f : field) : field :=
  mkfield (fname f) (ann f) (default f) (ge f) (le f) (max_length f)
    (decimal_places f) (Some n) (primary_key f) (foreign_key f)
    (index f) (unique f) (sa_column_json f).
Definition set_primary_key (f : field) : field :=
  mkfield (fname f) (ann f) (default f) (ge f) (le f) (max_length f)
    (decimal_places f) (max_digits f) true (foreign_key f)
    (index f) (unique f) (sa_column_json f).
Definition set_foreign_key (t : string) (f : field) : field :=
  mkfield (fname f) (ann f) (default f) (ge f) (le f) (max_length f)
    (decimal_places f) (max_digits f) (primary_key f) (Some t)
    (index f) (unique f) (sa_column_json f).
Definition set_index (f : field) : field :=
  mkfield (fname f) (ann f) (default f) (ge f) (le f) (max_length f)
    (decimal_places f) (max_digits f) (primary_key f) (foreign_key f)
    true (unique f) (sa_column_json f).
Definition set_unique (f : field) : field :=
  mkfield (fname f) (ann f) (default f) (ge f) (le f) (max_length f)
    (decimal_places f) (max_digits f) (primary_key f) (foreign_key f)
    (index f) true (sa_column_json f).
Definition set_sa_column_json (f : field) : field :=
  mkfield (fname f) (ann f) (default f) (ge f) (le f) (max_length f)
    (decimal_places f) (max_digits f) (primary_key f) (foreign_key f)
    (index f) (unique f) true.

Declare Scope field_scope.
Delimit Scope field_scope with field.
Notation "f & g" := (g f) (at level 50, left associativity, only parsing)
  : field_scope.

(** A class of the module: [tablename] is [Some] for [table=True].  The
    [Relationship] attributes are kept by name and target class; they are
    not fields. *)
Record model := mkmodel {
  mname : string;
  tablename : option string;
  fields : list field;
  relationships : list (string * string)
}.

(** ** The catalog *)

(** *** Core data models *)

(** Base model for all EIA data points *)
Definition EIADataPoint : model := {|
  mname := "EIADataPoint";
  tablename := Some "eia_data_points";
  fields := [
    attr "id" (Optional Int) & set_default VNone & set_primary_key;
    attr "series_id" Str & set_max_length 100 & set_index;
    attr "data_source" (Enum EDataSourceType);
    attr "product_type" (Enum EProductType);
    attr "disposition_type" (Enum EDispositionType);
    attr "period_date" TDate & set_index;
    attr "value" TDecimal & set_decimal_places 2 & set_max_digits 15;
    attr "unit" Str & set_max_length 50;
    attr "region" (Optional Str) & set_default VNone & set_max_length 100;
    attr "created_at" TDatetime & set_default_factory_utcnow;
    attr "updated_at" TDatetime & set_default_factory_utcnow
  ]%field;
  relationships := [("supply_disposition_entries", "SupplyDisposition")]
|}.

(** Short-Term Energy Outlook specific data *)
Definition STEOData : model := {|
  mname := "STEOData";
  tablename := Some "steo_data";
  fields := [
    attr "id" (Optional Int) & set_default VNone & set_primary_key;
    attr "series_id" Str & set_max_length 100 & set_index;
    attr "product_type" (Enum EProductType);
    attr "forecast_period" TDate;
    attr "forecast_value" TDecimal & set_decimal_places 2 & set_max_digits 15;
    attr "unit" Str & set_max_length 50;
    attr "confidence_interval_low" (Optional TDecimal) & set_default VNone
      & set_decimal_places 2 & set_max_digits 15;
    attr "confidence_interval_high" (Optional TDecimal) & set_default VNone
      & set_decimal_places 2 & set_max_digits 15;
    attr "created_at" TDatetime & set_default_factory_utcnow
  ]%field;
  relationships := []
|}.

(** Petroleum Supply Monthly specific data *)
Definition PSMData : model := {|
  mname := "PSMData";
  tablename := Some "psm_data";
  fields := [
    attr "id" (Optional Int) & set_default VNone & set_primary_key;
    attr "series_id" Str & set_max_length 100 & set_index;
    attr "product_type" (Enum EProductType);
    attr "disposition_type" (Enum EDispositionType);
    attr "report_month" TDate;
    attr "value" TDecimal & set_decimal_places 2 & set_max_digits 15;
    attr "unit" Str & set_max_length 50;
    attr "revision_flag" Bool & set_default (VBool false);
    attr "created_at" TDatetime & set_default_factory_utcnow
  ]%field;
  relationships := []
|}.

(** Weekly Petroleum Status Report data *)
Definition WeeklyData : model := {|
  mname := "WeeklyData";
  tablename := Some "weekly_data";
  fields := [
    attr "id" (Optional Int) & set_default VNone & set_primary_key;
    attr "series_id" Str & set_max_length 100 & set_index;
    attr "product_type" (Enum EProductType);
    attr "disposition_type" (Enum EDispositionType);
    attr "week_ending" TDate & set_index;
    attr "value" TDecimal & set_decimal_places 2 & set_max_digits 15;
    attr "unit" Str & set_max_length 50;
    attr "seasonal_adjustment" (Optional Str) & set_default VNone
      & set_max_length 50;
    attr "created_at" TDatetime & set_default_factory_utcnow
  ]%field;
  relationships := []
|}.

(** *** Supply disposition models *)

(** Supply and disposition balance for petroleum products *)
Definition SupplyDisposition : model := {|
  mname := "SupplyDisposition";
  tablename := Some "supply_disposition";
  fields := [
    attr "id" (Optional Int) & set_default VNone & set_primary_key;
    attr "product_type" (Enum EProductType);
    attr "period_date" TDate & set_index;
    attr "data_point_id" (Optional Int) & set_default VNone
      & set_foreign_key "eia_data_points.id";
    attr "production" TDecimal & set_default (VDecimal Decimal_0)
      & set_decimal_places 2 & set_max_digits 15;
    attr "imports" TDecimal & set_default (VDecimal Decimal_0)
      & set_decimal_places 2 & set_max_digits 15;
    attr "stock_withdrawal" TDecimal & set_default (VDecimal Decimal_0)
      & set_decimal_places 2 & set_max_digits 15;
    attr "exports" TDecimal & set_default (VDecimal Decimal_0)
      & set_decimal_places 2 & set_max_digits 15;
    attr "refinery_input" TDecimal & set_default (VDecimal Decimal_0)
      & set_decimal_places 2 & set_max_digits 15;
    attr "product_supplied" TDecimal & set_default (VDecimal Decimal_0)
      & set_decimal_places 2 & set_max_digits 15;
    attr "stock_build" TDecimal & set_default (VDecimal Decimal_0)
      & set_decimal_places 2 & set_max_digits 15;
    attr "unit" Str & set_max_length 50;
    attr "region" (Optional Str) & set_default VNone & set_max_length 100;
    attr "created_at" TDatetime & set_default_factory_utcnow
  ]%field;
  relationships := [("data_point", "EIADataPoint")]
|}.

(** *** Scenario planning models *)

(** Scenario definitions for supply shock simulations *)
Definition Scenario : model := {|
  mname := "Scenario";
  tablename := Some "scenarios";
  fields := [
    attr "id" (Optional Int) & set_default VNone & set_primary_key;
    attr "name" Str & set_max_length 200;
    attr "description" Str & set_max_length 1000;
    attr "scenario_type" (Enum EScenarioType);
    attr "severity_level" (Enum ESeverityLevel);
    attr "start_date" TDate;
    attr "end_date" TDate;
    attr "hurricane_category" (Optional Int) & set_default VNone & set_ge 1
      & set_le 5;
    attr "affected_regions" ListStr & set_default (VList [])
      & set_sa_column_json;
    attr "production_impact_pct" TDecimal & set_default (VDecimal Decimal_0)
      & set_decimal_places 2 & set_max_digits 5;
    attr "refining_capacity_impact_pct" TDecimal
      & set_default (VDecimal Decimal_0) & set_decimal_places 2
      & set_max_digits 5;
    attr "import_disruption_pct" TDecimal & set_default (VDecimal Decimal_0)
      & set_decimal_places 2 & set_max_digits 5;
    attr "parameters" DictStrAny & set_default (VDict [])
      & set_sa_column_json;
    attr "is_active" Bool & set_default (VBool true);
    attr "created_by" (Optional Str) & set_default VNone & set_max_length 100;
    attr "created_at" TDatetime & set_default_factory_utcnow
  ]%field;
  relationships := [("scenario_impacts", "ScenarioImpact");
                    ("price_forecasts", "PriceForecast")]
|}.

(** Impact calculations for specific scenarios *)
Definition ScenarioImpact : model := {|
  mname := "ScenarioImpact";
  tablename := Some "scenario_impacts";
  fields := [
    attr "id" (Optional Int) & set_default VNone & set_primary_key;
    attr "scenario_id" Int & set_foreign_key "scenarios.id";
    attr "product_type" (Enum EProductType);
    attr "disposition_type" (Enum EDispositionType);
    attr "impact_date" TDate;
    attr "baseline_value" TDecimal & set_decimal_places 2 & set_max_digits 15;
    attr "scenario_value" TDecimal & set_decimal_places 2 & set_max_digits 15;
    attr "impact_absolute" TDecimal & set_decimal_places 2
      & set_max_digits 15;
    attr "impact_percentage" TDecimal & set_decimal_places 2
      & set_max_digits 5;
    attr "unit" Str & set_max_length 50;
    attr "region" (Optional Str) & set_default VNone & set_max_length 100;
    attr "created_at" TDatetime & set_default_factory_utcnow
  ]%field;
  relationships := [("scenario", "Scenario")]
|}.

(** *** Pricing models *)

(** Historical and current pricing data *)
Definition PriceData : model := {|
  mname := "PriceData";
  tablename := Some "price_data";
  fields := [
    attr "id" (Optional Int) & set_default VNone & set_primary_key;
    attr "product_type" (Enum EProductType);
    attr "price_date" TDate & set_index;
    attr "price" TDecimal & set_decimal_places 4 & set_max_digits 10;
    attr "price_type" Str & set_max_length 50;
    attr "location" Str & set_max_length 100;
    attr "unit" Str & set_max_length 50;
    attr "volume" (Optional TDecimal) & set_default VNone
      & set_decimal_places 2 & set_max_digits 15;
    attr "open_interest" (Optional TDecimal) & set_default VNone
      & set_decimal_places 2 & set_max_digits 15;
    attr "volatility" (Optional TDecimal) & set_default VNone
      & set_decimal_places 4 & set_max_digits 8;
    attr "created_at" TDatetime & set_default_factory_utcnow
  ]%field;
  relationships := []
|}.

(** Price forecasts under different scenarios *)
Definition PriceForecast : model := {|
  mname := "PriceForecast";
  tablename := Some "price_forecasts";
  fields := [
    attr "id" (Optional Int) & set_default VNone & set_primary_key;
    attr "scenario_id" (Optional Int) & set_default VNone
      & set_foreign_key "scenarios.id";
    attr "product_type" (Enum EProductType);
    attr "forecast_date" TDate;
    attr "forecast_price" TDecimal & set_decimal_places 4 & set_max_digits 10;
    attr "baseline_price" TDecimal & set_decimal_places 4 & set_max_digits 10;
    attr "price_impact" TDecimal & set_decimal_places 4 & set_max_digits 10;
    attr "price_impact_pct" TDecimal & set_decimal_places 2
      & set_max_digits 5;
    attr "confidence_level" (Optional TDecimal) & set_default VNone
      & set_decimal_places 2 & set_max_digits 5;
    attr "price_type" Str & set_max_length 50;
    attr "location" Str & set_max_length 100;
    attr "unit" Str & set_max_length 50;
    attr "created_at" TDatetime & set_default_factory_utcnow
  ]%field;
  relationships := [("scenario", "Scenario")]
|}.

(** *** Seasonality models *)

(** Seasonal patterns for different products and regions *)
Definition SeasonalPattern : model := {|
  mname := "SeasonalPattern";
  tablename := Some "seasonal_patterns";
  fields := [
    attr "id" (Optional Int) & set_default VNone & set_primary_key;
    attr "product_type" (Enum EProductType);
    attr "disposition_type" (Enum EDispositionType);
    attr "month" Int & set_ge 1 & set_le 12;
    attr "region" (Optional Str) & set_default VNone & set_max_length 100;
    attr "seasonal_index" TDecimal & set_decimal_places 4 & set_max_digits 6;
    attr "trend_factor" TDecimal & set_default (VDecimal Decimal_1_0)
      & set_decimal_places 4 & set_max_digits 6;
    attr "volatility_multiplier" TDecimal
      & set_default (VDecimal Decimal_1_0) & set_decimal_places 4
      & set_max_digits 6;
    attr "years_of_data" Int & set_default (VInt 10) & set_ge 1;
    attr "last_updated" TDatetime & set_default_factory_utcnow;
    attr "created_at" TDatetime & set_default_factory_utcnow
  ]%field;
  relationships := []
|}.

(** Historical hurricane impact data for model calibration *)
Definition HurricaneHistorical : model := {|
  mname := "HurricaneHistorical";
  tablename := Some "hurricane_historical";
  fields := [
    attr "id" (Optional Int) & set_default VNone & set_primary_key;
    attr "hurricane_name" Str & set_max_length 100;
    attr "year" Int & set_ge 1950;
    attr "category" Int & set_ge 1 & set_le 5;
    attr "landfall_date" TDate;
    attr "affected_regions" ListStr & set_default (VList [])
      & set_sa_column_json;
    attr "refinery_capacity_lost_pct" TDecimal
      & set_default (VDecimal Decimal_0) & set_decimal_places 2
      & set_max_digits 5;
    attr "production_disruption_days" Int & set_default (VInt 0) & set_ge 0;
    attr "price_spike_gasoline_pct" TDecimal
      & set_default (VDecimal Decimal_0) & set_decimal_places 2
      & set_max_digits 8;
    attr "price_spike_crude_pct" TDecimal & set_default (VDecimal Decimal_0)
      & set_decimal_places 2 & set_max_digits 8;
    attr "recovery_days_production" Int & set_default (VInt 0) & set_ge 0;
    attr "recovery_days_refining" Int & set_default (VInt 0) & set_ge 0;
    attr "notes" (Optional Str) & set_default VNone & set_max_length 1000;
    attr "created_at" TDatetime & set_default_factory_utcnow
  ]%field;
  relationships := []
|}.

(** *** Dashboard configuration models *)

(** Configuration for dashboard displays and reports *)
Definition DashboardConfig : model := {|
  mname := "DashboardConfig";
  tablename := Some "dashboard_config";
  fields := [
    attr "id" (Optional Int) & set_default VNone & set_primary_key;
    attr "config_name" Str & set_max_length 100 & set_unique;
    attr "dashboard_type" Str & set_max_length 50;
    attr "chart_configs" DictStrAny & set_default (VDict [])
      & set_sa_column_json;
    attr "data_filters" DictStrAny & set_default (VDict [])
      & set_sa_column_json;
    attr "refresh_interval_minutes" Int & set_default (VInt 60) & set_ge 1;
    attr "default_date_range_days" Int & set_default (VInt 365) & set_ge 1;
    attr "include_forecasts" Bool & set_default (VBool true);
    attr "include_scenarios" Bool & set_default (VBool false);
    attr "is_active" Bool & set_default (VBool true);
    attr "created_by" (Optional Str) & set_default VNone & set_max_length 100;
    attr "created_at" TDatetime & set_default_factory_utcnow;
    attr "updated_at" TDatetime & set_default_factory_utcnow
  ]%field;
  relationships := []
|}.

(** Templates for automated reports *)
Definition ReportTemplate : model := {|
  mname := "ReportTemplate";
  tablename := Some "report_templates";
  fields := [
    attr "id" (Optional Int) & set_default VNone & set_primary_key;
    attr "template_name" Str & set_max_length 200;
    attr "report_type" Str & set_max_length 50;
    attr "data_sources" ListStr & set_default (VList []) & set_sa_column_json;
    attr "products_included" ListStr & set_default (VList [])
      & set_sa_column_json;
    attr "regions_included" ListStr & set_default (VList [])
      & set_sa_column_json;
    attr "output_format" Str & set_max_length 20 & set_default (VStr "PDF");
    attr "chart_specifications" DictStrAny & set_default (VDict [])
      & set_sa_column_json;
    attr "schedule_pattern" (Optional Str) & set_default VNone
      & set_max_length 100;
    attr "auto_send" Bool & set_default (VBool false);
    attr "recipients" ListStr & set_default (VList []) & set_sa_column_json;
    attr "is_active" Bool & set_default (VBool true);
    attr "created_by" (Optional Str) & set_default VNone & set_max_length 100;
    attr "created_at" TDatetime & set_default_factory_utcnow
  ]%field;
  relationships := []
|}.

(** *** Alert and monitoring models *)

(** Alerts for data anomalies and significant changes *)
Definition DataAlert : model := {|
  mname := "DataAlert";
  tablename := Some "data_alerts";
  fields := [
    attr "id" (Optional Int) & set_default VNone & set_primary_key;
    attr "alert_name" Str & set_max_length 200;
    attr "alert_type" Str & set_max_length 50;
    attr "product_type" (Optional (Enum EProductType)) & set_default VNone;
    attr "threshold_value" (Optional TDecimal) & set_default VNone
      & set_decimal_places 4 & set_max_digits 15;
    attr "threshold_operator" (Optional Str) & set_default VNone
      & set_max_length 10;
    attr "check_frequency_minutes" Int & set_default (VInt 60) & set_ge 1;
    attr "cooldown_hours" Int & set_default (VInt 24) & set_ge 1;
    attr "severity_level" (Enum ESeverityLevel)
      & set_default (VEnum ESeverityLevel (enum_value MODERATE));
    attr "is_active" Bool & set_default (VBool true);
    attr "last_triggered" (Optional TDatetime) & set_default VNone;
    attr "created_at" TDatetime & set_default_factory_utcnow
  ]%field;
  relationships := []
|}.

(** *** Non-persistent schemas for API and validation *)

Definition EIADataPointCreate : model := {|
  mname := "EIADataPointCreate";
  tablename := None;
  fields := [
    attr "series_id" Str & set_max_length 100;
    attr "data_source" (Enum EDataSourceType);
    attr "product_type" (Enum EProductType);
    attr "disposition_type" (Enum EDispositionType);
    attr "period_date" TDate;
    attr "value" TDecimal & set_decimal_places 2 & set_max_digits 15;
    attr "unit" Str & set_max_length 50;
    attr "region" (Optional Str) & set_default VNone & set_max_length 100
  ]%field;
  relationships := []
|}.

Definition ScenarioCreate : model := {|
  mname := "ScenarioCreate";
  tablename := None;
  fields := [
    attr "name" Str & set_max_length 200;
    attr "description" Str & set_max_length 1000;
    attr "scenario_type" (Enum EScenarioType);
    attr "severity_level" (Enum ESeverityLevel);
    attr "start_date" TDate;
    attr "end_date" TDate;
    attr "hurricane_category" (Optional Int) & set_default VNone & set_ge 1
      & set_le 5;
    attr "affected_regions" ListStr & set_default (VList []);
    attr "production_impact_pct" TDecimal & set_default (VDecimal Decimal_0)
      & set_decimal_places 2 & set_max_digits 5;
    attr "refining_capacity_impact_pct" TDecimal
      & set_default (VDecimal Decimal_0) & set_decimal_places 2
      & set_max_digits 5;
    attr "import_disruption_pct" TDecimal & set_default (VDecimal Decimal_0)
      & set_decimal_places 2 & set_max_digits 5;
    attr "parameters" DictStrAny & set_default (VDict [])
  ]%field;
  relationships := []
|}.

Definition ScenarioUpdate : model := {|
  mname := "ScenarioUpdate";
  tablename := None;
  fields := [
    attr "name" (Optional Str) & set_default VNone & set_max_length 200;
    attr "description" (Optional Str) & set_default VNone
      & set_max_length 1000;
    attr "severity_level" (Optional (Enum ESeverityLevel))
      & set_default VNone;
    attr "start_date" (Optional TDate) & set_default VNone;
    attr "end_date" (Optional TDate) & set_default VNone;
    attr "production_impact_pct" (Optional TDecimal) & set_default VNone
      & set_decimal_places 2 & set_max_digits 5;
    attr "refining_capacity_impact_pct" (Optional TDecimal)
      & set_default VNone & set_decimal_places 2 & set_max_digits 5;
    attr "import_disruption_pct" (Optional TDecimal) & set_default VNone
      & set_decimal_places 2 & set_max_digits 5;
    attr "parameters" (Optional DictStrAny) & set_default VNone;
    attr "is_active" (Optional Bool) & set_default VNone
  ]%field;
  relationships := []
|}.

Definition DashboardConfigCreate : model := {|
  mname := "DashboardConfigCreate";
  tablename := None;
  fields := [
    attr "config_name" Str & set_max_length 100;
    attr "dashboard_type" Str & set_max_length 50;
    attr "chart_configs" DictStrAny & set_default (VDict []);
    attr "data_filters" DictStrAny & set_default (VDict []);
    attr "refresh_interval_minutes" Int & set_default (VInt 60) & set_ge 1;
    attr "default_date_range_days" Int & set_default (VInt 365) & set_ge 1;
    attr "include_forecasts" Bool & set_default (VBool true);
    attr "include_scenarios" Bool & set_default (VBool false)
  ]%field;
  relationships := []
|}.

(** Summary view for supply disposition data *)
Definition SupplyDispositionSummary : model := {|
  mname := "SupplyDispositionSummary";
  tablename := None;
  fields := [
    attr "product_type" (Enum EProductType);
    attr "period_date" TDate;
    attr "total_supply" TDecimal & set_decimal_places 2 & set_max_digits 15;
    attr "total_disposition" TDecimal & set_decimal_places 2
      & set_max_digits 15;
    attr "balance" TDecimal & set_decimal_places 2 & set_max_digits 15;
    attr "unit" Str;
    attr "region" (Optional Str) & set_default VNone
  ]%field;
  relationships := []
|}.

(** All classes of the module, in source order. *)
Definition catalog : list model :=
  [EIADataPoint; STEOData; PSMData; WeeklyData; SupplyDisposition; Scenario;
   ScenarioImpact; PriceData; PriceForecast; SeasonalPattern;
   HurricaneHistorical; DashboardConfig; ReportTemplate; DataAlert;
   EIADataPointCreate; ScenarioCreate; ScenarioUpdate; DashboardConfigCreate;
   SupplyDispositionSummary].

(** ** Validation *)

(** The kinds of failure a field can report. *)
Inductive error :=
  | Missing
  | IntType | StringType | BoolType | DecimalType | DateType | DatetimeType
  | ListType | DictType
  | EnumError (e : enum)
  | LessThanEqual (bound : Z)
  | GreaterThanEqual (bound : Z)
  | StringTooLong (bound : nat)
  | FiniteNumber
  | DecimalMaxDigits (bound : nat)
  | DecimalMaxPlaces (bound : nat)
  | DecimalWholeDigits (bound : nat).

Definition is_str (v : value) : bool :=
  match v with VStr _ => true | _ => false end.

(** The bounds of an integer field: [le] is looked at first, then [ge]. *)
Definition check_ge (f : field) (z : Z) : error + value :=
  match ge f with
  | Some lo => if (z <? lo)%Z then inl (GreaterThanEqual lo) else inr (VInt z)
  | None => inr (VInt z)
  end.

Definition check_int (f : field) (z : Z) : error + value :=
  match le f with
  | Some hi => if (hi <? z)%Z then inl (LessThanEqual hi) else check_ge f z
  | None => check_ge f z
  end.

(** A [str] is held as the UTF-8 bytes of its characters; its length, as
    [len] gives it, is the number of characters: the bytes 10xxxxxx, which
    continue a character, are not counted. *)
Definition is_continuation (c : ascii) : bool :=
  match c with
  | Ascii _ _ _ _ _ _ false true => true
  | _ => false
  end.

Fixpoint char_length (s : string) : nat :=
  match s with
  | EmptyString => O
  | String c rest =>
      if is_continuation c then char_length rest else S (char_length rest)
  end.

(** [max_length] bounds the number of characters of a string. *)
Definition check_str (f : field) (s : string) : error + value :=
  match max_length f with
  | Some n => if (n <? char_length s)%nat then inl (StringTooLong n)
              else inr (VStr s)
  | None => inr (VStr s)
  end.

(** The digit checks of a decimal field, in order: total digits against
    [max_digits]; decimals against [decimal_places]; and, when both are
    set, the digits before the point against their difference.  They need
    a finite number. *)
Definition first_error (a b : option error) : option error :=
  match a with Some _ => a | None => b end.

Definition check_digits (md dp : option nat) (decimals digits : nat)
  : option error :=
  first_error
    match md with
    | Some m => if (m <? digits)%nat then Some (DecimalMaxDigits m) else None
    | None => None
    end
    match dp with
    | Some p =>
        if (p <? decimals)%nat then Some (DecimalMaxPlaces p)
        else match md with
             | Some m => if (m - p <? digits - decimals)%nat
                         then Some (DecimalWholeDigits (m - p)) else None
             | None => None
             end
    | None => None
    end.

Definition check_decimal (f : field) (d : Decimal) : error + value :=
  match max_digits f, decimal_places f with
  | None, None => inr (VDecimal d)
  | md, dp =>
      match decimal_digits_info d with
      | None => inl FiniteNumber
      | Some (decimals, digits) =>
          match check_digits md dp decimals digits with
          | Some err => inl err
          | None => inr (VDecimal d)
          end
      end
  end.

Definition check_enum (e : enum) (s : string) : error + value :=
  if bool_decide (s ∈ enum_values e) then inr (VEnum e s)
  else inl (EnumError e).

(** A raw value against an annotation and the constraints of the field.
    [None] passes an [Optional] annotation only; an enumeration takes one
    of its members or a string equal to one. *)
Fixpoint validate_value (a : annotation) (f : field) (v : value)
  : error + value :=
  match a with
  | Optional a' =>
      match v with VNone => inr VNone | _ => validate_value a' f v end
  | Int => match v with VInt z => check_int f z | _ => inl IntType end
  | Str => match v with VStr s => check_str f s | _ => inl StringType end
  | Bool => match v with VBool b => inr v | _ => inl BoolType end
  | TDecimal =>
      match v with VDecimal d => check_decimal f d | _ => inl DecimalType end
  | TDate => match v with VDate _ => inr v | _ => inl DateType end
  | TDatetime => match v with VDatetime _ => inr v | _ => inl DatetimeType end
  | Enum e =>
      match v with
      | VStr s => check_enum e s
      | VEnum e' s => if bool_decide (e' = e) then check_enum e s
                      else inl (EnumError e)
      | _ => inl (EnumError e)
      end
  | ListStr =>
      match v with
      | VList l => if forallb is_str l then inr v else inl StringType
      | _ => inl ListType
      end
  | DictStrAny => match v with VDict _ => inr v | _ => inl DictType end
  end.

(** One declared field against the keyword arguments: an absent keyword
    takes the default (which is not validated) or is reported missing. *)
Definition validate_field (now : clock) (f : field) (arg : option value)
  : error + value :=
  match arg with
  | Some v => validate_value (ann f) f v
  | None =>
      match default f with
      | Required => inl Missing
      | Default v => inr v
      | DefaultFactoryUtcnow => inr (VDatetime (now (fname f)))
      end
  end.

(** All fields in declaration order: the validated attributes and the
    errors, each with the name of its field.  Keywords that name no field
    are ignored. *)
Fixpoint validate_fields (now : clock) (fs : list field)
    (kwargs : gmap string value)
  : list (string * value) * list (string * error) :=
  match fs with
  | [] => ([], [])
  | f :: fs' =>
      let '(vals, errs) := validate_fields now fs' kwargs in
      match validate_field now f (kwargs !! fname f) with
      | inr v => ((fname f, v) :: vals, errs)
      | inl e => (vals, (fname f, e) :: errs)
      end
  end.

Inductive result :=
  | Ok (instance : gmap string value)
  | ValidationError (errors : list (string * error)).

(** [m.model_validate(kwargs)]: validation of keyword data by class [m],
    giving the instance, as a map from attribute names to values, or the
    errors of all fields that failed.  It is the same for every class,
    whether declared with [table=True] or not. *)
Definition validate (now : clock) (m : model) (kwargs : gmap string value)
  : result :=
  match validate_fields now (fields m) kwargs with
  | (vals, []) => Ok (list_to_map vals)
  | (_, errs) => ValidationError errs
  end.

(** *** The constructor *)

(** What the constructor of a [table=True] class makes of one attribute:
    the value passed, whatever it is, or the default when there is one;
    nothing is checked, and a required attribute that is not passed is left
    unset. *)
Definition table_attribute (now : clock) (f : field) (arg : option value)
  : option value :=
  match arg with
  | Some v => Some v
  | None =>
      match default f with
      | Required => None
      | Default v => Some v
      | DefaultFactoryUtcnow => Some (VDatetime (now (fname f)))
      end
  end.

Fixpoint table_construct_fields (now : clock) (fs : list field)
    (kwargs : gmap string value) : list (string * value) :=
  match fs with
  | [] => []
  | f :: fs' =>
      match table_attribute now f (kwargs !! fname f) with
      | Some v => (fname f, v) :: table_construct_fields now fs' kwargs
      | None => table_construct_fields now fs' kwargs
      end
  end.

(** The constructor, a call of the class with keyword arguments.  A class declared with [table=True] is built
    without validation, from the attributes as passed; a class declared
    with [table=False] is built by validation.  (Relationship attributes,
    whose values are instances of other classes, are not in [value] and are
    left out.) *)
Definition construct (now : clock) (m : model) (kwargs : gmap string value)
  : result :=
  match tablename m with
  | Some _ => Ok (list_to_map (table_construct_fields now (fields m) kwargs))
  | None => validate now m kwargs
  end.

Definition accepts (now : clock) (m : model) (kwargs : gmap string value)
  : Prop :=
  ∃ r, validate now m kwargs = Ok r.

Definition rejects (now : clock) (m : model) (kwargs : gmap string value)
  : Prop :=
  ∃ errs, validate now m kwargs = ValidationError errs.

(** Validation fails and reports error [e] on attribute [n]. *)
Definition rejects_with (now : clock) (m : model)
    (kwargs : gmap string value) (n : string) (e : error) : Prop :=
  ∃ errs, validate now m kwargs = ValidationError errs ∧ (n, e) ∈ errs.

Definition field_names (m : model) : list string := map fname (fields m).

(** ** Decimal arithmetic *)

Definition signed (s : bool) (c : N) : Z :=
  if s then (- Z.of_N c)%Z else Z.of_N c.

(** Two finite numbers brought to their smaller exponent. *)
Definition align (ca : Z) (ea : Z) (cb : Z) (eb : Z) : Z * Z * Z :=
  let e := Z.min ea eb in
  ((ca * 10 ^ (ea - e))%Z, (cb * 10 ^ (eb - e))%Z, e).

(** [a - b] on finite numbers, that is [a + (-b)]; the exponent of the
    result is the smaller of the two, and a zero result is negative only
    when [a] and [-b] both are.  (The rounding to the context precision of
    28 digits is left out.) *)
Definition dec_sub (a b : Decimal) : option Decimal :=
  match a, b with
  | Dec sa ca ea, Dec sb cb eb =>
      let '(x, y, e) := align (signed sa ca) ea (signed sb cb) eb in
      let z := (x - y)%Z in
      if (z =? 0)%Z then Some (Dec (sa && negb sb) 0 e)
      else Some (Dec (z <? 0)%Z (Z.abs_N z) e)
  | _, _ => None
  end.

(** [a == b] on finite numbers: equality of the numbers denoted. *)
Definition dec_eqb (a b : Decimal) : bool :=
  match a, b with
  | Dec sa ca ea, Dec sb cb eb =>
      let '(x, y, _) := align (signed sa ca) ea (signed sb cb) eb in
      (x =? y)%Z
  | _, _ => false
  end.


(** ** The glossary of the specification *)

(** The literal values the specification's glossary lists for each
    enumeration; to be compared with [enum_values], which comes from the
    class definitions. *)
Definition glossary (e : enum) : list string :=
  match e with
  | EDataSourceType => ["STEO"; "PSM"; "WEEKLY"]
  | EProductType =>
      ["CRUDE_OIL"; "GASOLINE"; "DISTILLATE"; "RESIDUAL"; "JET_FUEL";
       "PROPANE"; "NATURAL_GAS"]
  | EDispositionType =>
      ["PRODUCTION"; "IMPORTS"; "EXPORTS"; "STOCK_CHANGE"; "REFINERY_INPUT";
       "DEMAND"]
  | EScenarioType =>
      ["BASELINE"; "HURRICANE"; "SUPPLY_SHOCK"; "DEMAND_SURGE";
       "REFINERY_OUTAGE"]
  | ESeverityLevel => ["LOW"; "MODERATE"; "HIGH"; "EXTREME"]
  end.

(** The enumeration a field is annotated with, if any. *)
Definition enum_of (a : annotation) : option enum :=
  match a with
  | Enum e | Optional (Enum e) => Some e
  | _ => None
  end.

Definition is_decimal (a : annotation) : bool :=
  match a with
  | TDecimal | Optional TDecimal => true
  | _ => false
  end.

(** A field that may be left out and may hold [None]. *)
Definition nullable (f : field) : Prop :=
  (∃ a, ann f = Optional a) ∧ default f = Default VNone.

(** ** Sample inputs *)

(** The readings of the clock in a run on 2025-06-01 and in one on
    2026-01-01, a few microseconds apart from one attribute to the next. *)
Definition utc_2025_06_01 : clock :=
  λ n, mkdatetime (mkdate 2025 6 1)
         (if String.eqb n "updated_at" then 7
          else if String.eqb n "created_at" then 5 else 3).

Definition utc_2026_01_01 : clock :=
  λ n, mkdatetime (mkdate 2026 1 1)
         (if String.eqb n "updated_at" then 9
          else if String.eqb n "created_at" then 6 else 2).

(** 100.00, 90.00, 5.00, -10.00, 2.5000, ... as [Decimal] literals. *)
Definition dec (sign : bool) (coeff : N) (exp : Z) : value :=
  VDecimal (Dec sign coeff exp).

Definition kwargs (l : list (string * value)) : gmap string value :=
  list_to_map l.

Definition eia_data_point_kwargs : gmap string value :=
  kwargs [("series_id", VStr "PET.WCRFPUS2.W");
          ("data_source", VStr "WEEKLY");
          ("product_type", VStr "CRUDE_OIL");
          ("disposition_type", VStr "PRODUCTION");
          ("period_date", VDate (mkdate 2025 5 30));
          ("value", dec false 1340050 (-2));
          ("unit", VStr "MBBL/D")].

Definition supply_disposition_kwargs : gmap string value :=
  kwargs [("product_type", VStr "GASOLINE");
          ("period_date", VDate (mkdate 2025 5 1));
          ("unit", VStr "MBBL/D")].

(** A scenario that ends nine days before it starts. *)
Definition scenario_kwargs : gmap string value :=
  kwargs [("name", VStr "Gulf landfall");
          ("description", VStr "Category 4 landfall near Houston");
          ("scenario_type", VStr "HURRICANE");
          ("severity_level", VStr "HIGH");
          ("start_date", VDate (mkdate 2025 9 10));
          ("end_date", VDate (mkdate 2025 9 1));
          ("hurricane_category", VInt 4)].

(** An impact of 5.00 recorded for a scenario value of 90.00 against a
    baseline of 100.00. *)
Definition scenario_impact_kwargs : gmap string value :=
  kwargs [("scenario_id", VInt 1);
          ("product_type", VStr "GASOLINE");
          ("disposition_type", VStr "PRODUCTION");
          ("impact_date", VDate (mkdate 2025 9 12));
          ("baseline_value", dec false 10000 (-2));
          ("scenario_value", dec false 9000 (-2));
          ("impact_absolute", dec false 500 (-2));
          ("impact_percentage", dec true 1000 (-2));
          ("unit", VStr "MBBL/D")].

(** A price forecast that names no scenario. *)
Definition price_forecast_kwargs : gmap string value :=
  kwargs [("product_type", VStr "GASOLINE");
          ("forecast_date", VDate (mkdate 2025 9 12));
          ("forecast_price", dec false 31250 (-4));
          ("baseline_price", dec false 30000 (-4));
          ("price_impact", dec false 1250 (-4));
          ("price_impact_pct", dec false 417 (-2));
          ("price_type", VStr "retail");
          ("location", VStr "Gulf Coast");
          ("unit", VStr "USD/gal")].

Definition seasonal_pattern_kwargs : gmap string value :=
  kwargs [("product_type", VStr "DISTILLATE");
          ("disposition_type", VStr "DEMAND");
          ("month", VInt 1);
          ("seasonal_index", dec false 11250 (-4))].

Definition hurricane_historical_kwargs : gmap string value :=
  kwargs [("hurricane_name", VStr "Katrina");
          ("year", VInt 2005);
          ("category", VInt 5);
          ("landfall_date", VDate (mkdate 2005 8 29));
          ("production_disruption_days", VInt 30);
          ("recovery_days_production", VInt 90);
          ("recovery_days_refining", VInt 60)].


(** The day counts of a historical hurricane record. *)
Definition day_counts : list string :=
  ["production_disruption_days"; "recovery_days_production";
   "recovery_days_refining"].

(** The instance of a successful result. *)
Definition is_ok (res : result) : bool :=
  match res with Ok _ => true | ValidationError _ => false end.

Definition instance_of (res : result) : gmap string value :=
  match res with Ok r => r | ValidationError _ => ∅ end.

(** The declaration of attribute [n] in class [m]. *)
Definition field_of (m : model) (n : string) : option field :=
  List.find (λ f, String.eqb (fname f) n) (fields m).

(** The attributes that hold a hurricane category. *)
Definition category_fields : list (model * string) :=
  [(Scenario, "hurricane_category"); (ScenarioCreate, "hurricane_category");
   (HurricaneHistorical, "category")].

(** The names under which the enumerations are used as attributes. *)
Definition enum_fields : list (string * enum) :=
  [("data_source", EDataSourceType); ("product_type", EProductType);
   ("disposition_type", EDispositionType); ("scenario_type", EScenarioType);
   ("severity_level", ESeverityLevel)].

(** The attributes declared with [foreign_key], by class. *)
Definition foreign_keys : list (string * string) :=
  [("SupplyDisposition", "data_point_id"); ("ScenarioImpact", "scenario_id");
   ("PriceForecast", "scenario_id")].

(** ** Shapes of declarations *)

#[export] Instance annotation_eq_dec : EqDecision annotation.
Proof. solve_decision. Defined.

Definition is_required (f : field) : bool :=
  match default f with Required => true | _ => false end.

Definition is_optional (a : annotation) : bool :=
  match a with Optional _ => true | _ => false end.

Definition is_none (v : value) : bool :=
  match v with VNone => true | _ => false end.

Definition is_int (a : annotation) : bool :=
  match a with Int | Optional Int => true | _ => false end.

Definition is_string (a : annotation) : bool :=
  match a with Str | Optional Str => true | _ => false end.

Definition is_table (m : model) : bool :=
  match tablename m with Some _ => true | None => false end.

(** The constraints two declarations put on a value are the same. *)
Definition same_constraints (f g : field) : bool :=
  bool_decide (ge f = ge g) && bool_decide (le f = le g)
  && bool_decide (max_length f = max_length g)
  && bool_decide (decimal_places f = decimal_places g)
  && bool_decide (max_digits f = max_digits g).

(** Class [C] is a projection of class [E]: every attribute of [C] is one
    of [E], an attribute they share is declared with the same annotation
    and constraints, and the attributes only [E] has have a default. *)
Definition projects (C E : model) : bool :=
  forallb (λ f, match field_of E (fname f) with
                | Some _ => true | None => false
                end) (fields C)
  && forallb (λ g, match field_of C (fname g) with
                   | Some f => bool_decide (ann f = ann g)
                               && same_constraints f g
                   | None => negb (is_required g)
                   end) (fields E).

(** The request shapes and the persistent classes they are made for. *)
Definition create_shapes : list (model * model) :=
  [(EIADataPointCreate, EIADataPoint); (ScenarioCreate, Scenario);
   (DashboardConfigCreate, DashboardConfig)].

(** The integer attributes that count something and start at 1, with
    their defaults. *)
Definition positive_counts : list (model * string * Z) :=
  [(SeasonalPattern, "years_of_data", 10%Z);
   (DashboardConfig, "refresh_interval_minutes", 60%Z);
   (DashboardConfig, "default_date_range_days", 365%Z);
   (DataAlert, "check_frequency_minutes", 60%Z);
   (DataAlert, "cooldown_hours", 24%Z);
   (DashboardConfigCreate, "refresh_interval_minutes", 60%Z);
   (DashboardConfigCreate, "default_date_range_days", 365%Z)].

(** The integer of a field within its declared bounds. *)
Definition in_bounds (f : field) (z : Z) : bool :=
  match ge f with Some lo => (lo <=? z)%Z | None => true end
  && match le f with Some hi => (z <=? hi)%Z | None => true end.


Definition is_finite (d : Decimal) : bool :=
  match d with Dec _ _ _ => true | _ => false end.

(** The attributes every missing one of which is reported. *)
Definition missing_errors (m : model) : list (string * error) :=
  map (λ f, (fname f, Missing)) (filter (λ f, is_required f = true) (fields m)).

(** ** Relationships and keys *)

(** How a [Relationship] attribute is annotated. *)
Inductive rel_annotation := ListOf | OptionalOf | Plain.

(** A [Relationship(back_populates=...)] attribute of a class. *)
Record relationship := mkrel {
  rel_class : model;
  rel_attr : string;
  rel_annotation_kind : rel_annotation;
  rel_target : model;
  back_populates : string
}.

Definition relationship_decls : list relationship :=
  [mkrel EIADataPoint "supply_disposition_entries" ListOf SupplyDisposition
     "data_point";
   mkrel SupplyDisposition "data_point" OptionalOf EIADataPoint
     "supply_disposition_entries";
   mkrel Scenario "scenario_impacts" ListOf ScenarioImpact "scenario";
   mkrel Scenario "price_forecasts" ListOf PriceForecast "scenario";
   mkrel ScenarioImpact "scenario" Plain Scenario "scenario_impacts";
   mkrel PriceForecast "scenario" OptionalOf Scenario "price_forecasts"].

(** ["table.column"] split at its first dot. *)
Fixpoint split_dot (s : string) : option (string * string) :=
  match s with
  | EmptyString => None
  | String c rest =>
      if Ascii.eqb c "."%char then Some (EmptyString, rest)
      else match split_dot rest with
           | Some (t, col) => Some (String c t, col)
           | None => None
           end
  end.

(** The class mapped to table [t]. *)
Definition table_class (t : string) : option model :=
  List.find (λ m, bool_decide (tablename m = Some t)) catalog.

(** The class and the column a foreign key points to. *)
Definition foreign_key_target (f : field) : option (model * field) :=
  match foreign_key f with
  | Some ref =>
      match split_dot ref with
      | Some (t, col) =>
          match table_class t with
          | Some m => match field_of m col with
                      | Some c => Some (m, c)
                      | None => None
                      end
          | None => None
          end
      | None => None
      end
  | None => None
  end.

(** The names of the attributes that have no default. *)
Definition required_attributes (m : model) : list string :=
  map fname (filter (λ f, is_required f = true) (fields m)).

(** The attributes without default, class by class. *)
Definition required_table : list (string * list string) :=
  [("EIADataPoint",
    ["series_id"; "data_source"; "product_type"; "disposition_type";
     "period_date"; "value"; "unit"]);
   ("STEOData",
    ["series_id"; "product_type"; "forecast_period"; "forecast_value";
     "unit"]);
   ("PSMData",
    ["series_id"; "product_type"; "disposition_type"; "report_month";
     "value"; "unit"]);
   ("WeeklyData",
    ["series_id"; "product_type"; "disposition_type"; "week_ending";
     "value"; "unit"]);
   ("SupplyDisposition", ["product_type"; "period_date"; "unit"]);
   ("Scenario",
    ["name"; "description"; "scenario_type"; "severity_level"; "start_date";
     "end_date"]);
   ("ScenarioImpact",
    ["scenario_id"; "product_type"; "disposition_type"; "impact_date";
     "baseline_value"; "scenario_value"; "impact_absolute";
     "impact_percentage"; "unit"]);
   ("PriceData",
    ["product_type"; "price_date"; "price"; "price_type"; "location";
     "unit"]);
   ("PriceForecast",
    ["product_type"; "forecast_date"; "forecast_price"; "baseline_price";
     "price_impact"; "price_impact_pct"; "price_type"; "location"; "unit"]);
   ("SeasonalPattern",
    ["product_type"; "disposition_type"; "month"; "seasonal_index"]);
   ("HurricaneHistorical",
    ["hurricane_name"; "year"; "category"; "landfall_date"]);
   ("DashboardConfig", ["config_name"; "dashboard_type"]);
   ("ReportTemplate", ["template_name"; "report_type"]);
   ("DataAlert", ["alert_name"; "alert_type"]);
   ("EIADataPointCreate",
    ["series_id"; "data_source"; "product_type"; "disposition_type";
     "period_date"; "value"; "unit"]);
   ("ScenarioCreate",
    ["name"; "description"; "scenario_type"; "severity_level"; "start_date";
     "end_date"]);
   ("ScenarioUpdate", []);
   ("DashboardConfigCreate", ["config_name"; "dashboard_type"]);
   ("SupplyDispositionSummary",
    ["product_type"; "period_date"; "total_supply"; "total_disposition";
     "balance"; "unit"])].

(** The errors of a failed result; none for a successful one. *)
Definition errors_of (res : result) : list (string * error) :=
  match res with Ok _ => [] | ValidationError errs => errs end.

Definition is_default_none (f : field) : bool :=
  match default f with Default VNone => true | _ => false end.

Definition data_alert_kwargs : gmap string value :=
  kwargs [("alert_name", VStr "Gasoline stock draw");
          ("alert_type", VStr "threshold");
          ("threshold_operator", VStr ">=")].

Definition dashboard_config_kwargs : gmap string value :=
  kwargs [("config_name", VStr "weekly-balance");
          ("dashboard_type", VStr "supply_disposition")].

(** The integer attributes declared without bounds. *)
Definition unbounded_integers : list string :=
  ["id"; "data_point_id"; "scenario_id"].

(** Class [U] is a partial update of class [E]: every attribute of [U] is
    the Optional form of the attribute of [E] of the same name, with the
    same constraints. *)
Definition patches (U E : model) : bool :=
  forallb (λ f, match field_of E (fname f) with
                | Some g => bool_decide (ann f = Optional (ann g))
                            && same_constraints f g
                | None => false
                end) (fields U).

(** ** General facts about validation *)

Section Validation.
Variable now : clock.

Lemma validate_fields_errors fs kw n e :
  (n, e) ∈ (validate_fields now fs kw).2 ↔
  ∃ f, f ∈ fs ∧ fname f = n ∧ validate_field now f (kw !! n) = inl e.
Proof.
  induction fs as [|g fs IH]; simpl.
  - split; [intros H; inversion H | intros (f & H & _); inversion H].
  - destruct (validate_fields now fs kw) as [vals errs]; simpl in *.
    destruct (validate_field now g (kw !! fname g)) as [e'|v] eqn:Hg; simpl.
    + rewrite elem_of_cons, IH. split.
      * intros [Heq | (f & Hf & Hn & He)].
        -- inversion Heq; subst. exists g. rewrite elem_of_cons. auto.
        -- exists f. rewrite elem_of_cons. auto.
      * intros (f & Hf & Hn & He). apply elem_of_cons in Hf as [-> | Hf].
        -- left. subst n. congruence.
        -- right. eauto.
    + rewrite IH. split.
      * intros (f & Hf & Hn & He). exists f. rewrite elem_of_cons. auto.
      * intros (f & Hf & Hn & He). apply elem_of_cons in Hf as [-> | Hf].
        -- subst n. congruence.
        -- eauto.
Qed.

Lemma validate_fields_values fs kw n v :
  (n, v) ∈ (validate_fields now fs kw).1 ↔
  ∃ f, f ∈ fs ∧ fname f = n ∧ validate_field now f (kw !! n) = inr v.
Proof.
  induction fs as [|g fs IH]; simpl.
  - split; [intros H; inversion H | intros (f & H & _); inversion H].
  - destruct (validate_fields now fs kw) as [vals errs]; simpl in *.
    destruct (validate_field now g (kw !! fname g)) as [e'|v'] eqn:Hg; simpl.
    + rewrite IH. split.
      * intros (f & Hf & Hn & He). exists f. rewrite elem_of_cons. auto.
      * intros (f & Hf & Hn & He). apply elem_of_cons in Hf as [-> | Hf].
        -- subst n. congruence.
        -- eauto.
    + rewrite elem_of_cons, IH. split.
      * intros [Heq | (f & Hf & Hn & He)].
        -- inversion Heq; subst. exists g. rewrite elem_of_cons. auto.
        -- exists f. rewrite elem_of_cons. auto.
      * intros (f & Hf & Hn & He). apply elem_of_cons in Hf as [-> | Hf].
        -- left. subst n. congruence.
        -- right. eauto.
Qed.

(** The validated attributes are a sublist of the declared names, so
    distinct declarations give distinct attributes. *)
Lemma validate_fields_names fs kw :
  sublist (validate_fields now fs kw).1.*1 (map fname fs).
Proof.
  induction fs as [|g fs IH]; simpl; [constructor|].
  destruct (validate_fields now fs kw) as [vals errs]; simpl in *.
  destruct (validate_field now g (kw !! fname g)); simpl.
  - by apply sublist_cons.
  - by apply sublist_skip.
Qed.

Lemma validate_Ok_inv m kw r :
  validate now m kw = Ok r →
  (validate_fields now (fields m) kw).2 = [] ∧
  r = list_to_map (validate_fields now (fields m) kw).1.
Proof.
  unfold validate. destruct (validate_fields now (fields m) kw) as [vals [|e errs]];
    simpl; intros H; inversion H; auto.
Qed.

Lemma validate_error_inv m kw errs :
  validate now m kw = ValidationError errs →
  errs = (validate_fields now (fields m) kw).2 ∧ errs ≠ [].
Proof.
  unfold validate. destruct (validate_fields now (fields m) kw) as [vals [|e es]];
    simpl; intros H; inversion H; auto.
Qed.

(** Validation succeeds exactly when every declared field validates. *)
Lemma accepts_iff m kw :
  accepts now m kw ↔
  ∀ f, f ∈ fields m → ∃ v, validate_field now f (kw !! fname f) = inr v.
Proof.
  split.
  - intros [r Hr] f Hf. apply validate_Ok_inv in Hr as [Herrs _].
    destruct (validate_field now f (kw !! fname f)) as [e|v] eqn:Hv; eauto.
    assert ((fname f, e) ∈ (validate_fields now (fields m) kw).2) as Hin.
    { apply validate_fields_errors. eauto. }
    rewrite Herrs in Hin. inversion Hin.
  - intros Hall. unfold accepts, validate.
    destruct (validate_fields now (fields m) kw) as [vals [|[n e] errs]] eqn:Hvf;
      [eauto|].
    assert ((n, e) ∈ (validate_fields now (fields m) kw).2) as Hin.
    { rewrite Hvf. simpl. apply elem_of_cons. auto. }
    apply validate_fields_errors in Hin as (f & Hf & <- & He).
    destruct (Hall f Hf) as [v Hv]. congruence.
Qed.

(** A field that fails makes the validation fail with its error. *)
Lemma field_error_rejects m kw f e :
  f ∈ fields m →
  validate_field now f (kw !! fname f) = inl e →
  rejects_with now m kw (fname f) e.
Proof.
  intros Hf He.
  assert ((fname f, e) ∈ (validate_fields now (fields m) kw).2) as Hin.
  { apply validate_fields_errors. eauto. }
  unfold rejects_with, validate.
  destruct (validate_fields now (fields m) kw) as [vals [|e' errs]];
    simpl in *; [inversion Hin | eauto].
Qed.


Lemma accepts_not_rejects m kw : accepts now m kw → ¬ rejects now m kw.
Proof. intros [r Hr] [errs He]. congruence. Qed.

Lemma accepts_or_rejects m kw : accepts now m kw ∨ rejects now m kw.
Proof.
  unfold accepts, rejects. destruct (validate now m kw); eauto.
Qed.

(** What a successful validation stores under a declared name. *)
Lemma validate_Ok_lookup m kw r f :
  NoDup (field_names m) →
  validate now m kw = Ok r →
  f ∈ fields m →
  ∃ v, validate_field now f (kw !! fname f) = inr v ∧ r !! fname f = Some v.
Proof.
  intros Hnd Hr Hf.
  assert (accepts now m kw) as Hacc by (by exists r).
  destruct (proj1 (accepts_iff m kw) Hacc f Hf) as [v Hv].
  exists v. split; [done|].
  apply validate_Ok_inv in Hr as [_ ->].
  apply elem_of_list_to_map.
  - eapply sublist_NoDup; [exact Hnd | apply validate_fields_names].
  - apply validate_fields_values. eauto.
Qed.

Lemma field_name_inj m f g :
  NoDup (field_names m) → f ∈ fields m → g ∈ fields m →
  fname f = fname g → f = g.
Proof.
  unfold field_names. induction (fields m) as [|h fs IH]; simpl.
  - intros _ Hf. inversion Hf.
  - intros Hnd Hf Hg Heq. apply NoDup_cons in Hnd as [Hnot Hnd].
    apply elem_of_cons in Hf as [-> | Hf];
      apply elem_of_cons in Hg as [-> | Hg]; auto.
    + exfalso. apply Hnot. rewrite Heq. apply list_elem_of_fmap. eauto.
    + exfalso. apply Hnot. rewrite <- Heq. apply list_elem_of_fmap. eauto.
Qed.

(** Passing [v] for one attribute of an accepted input: the outcome is
    that of the field alone. *)
Lemma accepts_insert m kw f v :
  NoDup (field_names m) → f ∈ fields m → accepts now m kw →
  accepts now m (<[fname f := v]> kw) ↔
  ∃ v', validate_field now f (Some v) = inr v'.
Proof.
  intros Hnd Hf Hacc. rewrite accepts_iff. split.
  - intros Hall. destruct (Hall f Hf) as [v' Hv'].
    rewrite lookup_insert_eq in Hv'. eauto.
  - intros [v' Hv'] g Hg.
    destruct (decide (fname f = fname g)) as [Heq | Hne].
    + assert (f = g) as <- by eauto using field_name_inj.
      rewrite lookup_insert_eq. eauto.
    + rewrite lookup_insert_ne by done.
      by apply (proj1 (accepts_iff m kw) Hacc).
Qed.

Lemma insert_rejects m kw f v e :
  f ∈ fields m →
  validate_field now f (Some v) = inl e →
  rejects_with now m (<[fname f := v]> kw) (fname f) e.
Proof.
  intros Hf He. apply field_error_rejects; [done|].
  by rewrite lookup_insert_eq.
Qed.

(** Leaving out an attribute that has a default keeps an accepted input
    accepted. *)
Lemma accepts_delete m kw f :
  NoDup (field_names m) → f ∈ fields m → accepts now m kw →
  default f ≠ Required →
  accepts now m (delete (fname f) kw).
Proof.
  intros Hnd Hf Hacc Hdef. apply accepts_iff. intros g Hg.
  destruct (decide (fname f = fname g)) as [Heq | Hne].
  - assert (f = g) as <- by eauto using field_name_inj.
    rewrite lookup_delete_eq. simpl. destruct (default f); eauto. done.
  - rewrite lookup_delete_ne by done.
    by apply (proj1 (accepts_iff m kw) Hacc).
Qed.

(** The stored attribute after a successful validation, by cases on
    whether the keyword was passed. *)
Lemma validate_Ok_passed m kw r f v v' :
  NoDup (field_names m) → f ∈ fields m →
  kw !! fname f = Some v →
  validate_field now f (Some v) = inr v' →
  validate now m kw = Ok r →
  r !! fname f = Some v'.
Proof.
  intros Hnd Hf Hkw Hv Hr.
  destruct (validate_Ok_lookup m kw r f Hnd Hr Hf) as (w & Hw & ->).
  rewrite Hkw in Hw. congruence.
Qed.

Lemma validate_Ok_omitted m kw r f v :
  NoDup (field_names m) → f ∈ fields m →
  kw !! fname f = None →
  default f = Default v →
  validate now m kw = Ok r →
  r !! fname f = Some v.
Proof.
  intros Hnd Hf Hkw Hv Hr.
  destruct (validate_Ok_lookup m kw r f Hnd Hr Hf) as (w & Hw & ->).
  rewrite Hkw in Hw. simpl in Hw. rewrite Hv in Hw. congruence.
Qed.

Lemma field_of_Some m n f :
  field_of m n = Some f → f ∈ fields m ∧ fname f = n.
Proof.
  intros H. apply find_some in H as [Hin Heq].
  split; [by apply list_elem_of_In | by apply String.eqb_eq].
Qed.

(** Passing a value the field accepts, to an input that was accepted. *)
Lemma set_attribute_Ok m n f kw v v' :
  NoDup (field_names m) → field_of m n = Some f →
  accepts now m kw →
  validate_field now f (Some v) = inr v' →
  ∃ r, validate now m (<[n := v]> kw) = Ok r ∧ r !! n = Some v'.
Proof.
  intros Hnd Hfo Hacc Hv. apply field_of_Some in Hfo as [Hf <-].
  destruct (proj2 (accepts_insert m kw f v Hnd Hf Hacc)) as [r Hr]; [eauto|].
  exists r. split; [done|].
  eapply validate_Ok_passed; eauto. apply lookup_insert_eq.
Qed.

(** Passing a value the field refuses, to any input. *)
Lemma set_attribute_error m n f kw v e :
  field_of m n = Some f →
  validate_field now f (Some v) = inl e →
  rejects_with now m (<[n := v]> kw) n e.
Proof.
  intros Hfo He. apply field_of_Some in Hfo as [Hf <-].
  by apply insert_rejects.
Qed.

(** Leaving out an attribute with a default, from an input that was
    accepted. *)
Lemma omit_attribute_Ok m n f kw v :
  NoDup (field_names m) → field_of m n = Some f →
  accepts now m kw →
  default f = Default v →
  ∃ r, validate now m (delete n kw) = Ok r ∧ r !! n = Some v.
Proof.
  intros Hnd Hfo Hacc Hv. apply field_of_Some in Hfo as [Hf <-].
  destruct (accepts_delete m kw f Hnd Hf Hacc) as [r Hr]; [congruence|].
  exists r. split; [done|].
  eapply validate_Ok_omitted; eauto. apply lookup_delete_eq.
Qed.

End Validation.

(** ** Integer bounds *)

Lemma check_int_between f lo hi z :
  ge f = Some lo → le f = Some hi →
  ((lo ≤ z ≤ hi)%Z → check_int f z = inr (VInt z)) ∧
  ((z < lo)%Z → lo ≤ hi → check_int f z = inl (GreaterThanEqual lo))%Z ∧
  ((hi < z)%Z → check_int f z = inl (LessThanEqual hi)).
Proof.
  intros Hge Hle. unfold check_int, check_ge. rewrite Hge, Hle.
  destruct (Z.ltb_spec hi z), (Z.ltb_spec z lo);
    repeat split; intros; try lia; reflexivity.
Qed.

Lemma check_int_at_least f lo z :
  ge f = Some lo → le f = None →
  ((lo ≤ z)%Z → check_int f z = inr (VInt z)) ∧
  ((z < lo)%Z → check_int f z = inl (GreaterThanEqual lo)).
Proof.
  intros Hge Hle. unfold check_int, check_ge. rewrite Hge, Hle.
  destruct (Z.ltb_spec z lo); split; intros; try lia; reflexivity.
Qed.

(** No class declares an attribute twice. *)
Lemma catalog_NoDup m : m ∈ catalog → NoDup (field_names m).
Proof.
  revert m. apply Forall_forall.
  unfold catalog.
  repeat (apply List.Forall_cons;
          [apply (bool_decide_unpack _); vm_compute; exact I|]).
  apply List.Forall_nil.
Qed.

(** Reading off a property of every field of every class by computation. *)
Lemma catalog_forallb (P : model → field → bool) :
  forallb (λ m, forallb (P m) (fields m)) catalog = true →
  ∀ m f, m ∈ catalog → f ∈ fields m → P m f = true.
Proof.
  intros H m f Hm Hf.
  rewrite forallb_forall in H. apply list_elem_of_In in Hm.
  specialize (H m Hm). rewrite forallb_forall in H.
  apply H. by apply list_elem_of_In.
Qed.

Lemma rejects_with_inv now m kw n e :
  rejects_with now m kw n e →
  ∃ f, f ∈ fields m ∧ fname f = n ∧ validate_field now f (kw !! n) = inl e.
Proof.
  intros (errs & Hv & Hin). apply validate_error_inv in Hv as [-> _].
  by apply validate_fields_errors in Hin.
Qed.

Lemma is_ok_instance res : is_ok res = true → res = Ok (instance_of res).
Proof. destruct res; simpl; congruence. Qed.

(** A concrete validation, settled by evaluation. *)
Ltac by_validation :=
  match goal with
  | |- ∃ r, validate ?now ?m ?kw = Ok r ∧ _ =>
      exists (instance_of (validate now m kw));
      split; [apply is_ok_instance; vm_compute; reflexivity|]
  | |- accepts ?now ?m ?kw =>
      exists (instance_of (validate now m kw));
      apply is_ok_instance; vm_compute; reflexivity
  end.

(** Case analysis on membership in a list written out in full. *)
Ltac elem_cases H :=
  repeat (apply elem_of_cons in H as [H | H]; [subst|]);
  try (by apply elem_of_nil in H).

(** Membership in a list written out in full. *)
Ltac elem_tac :=
  simpl; unfold catalog;
  repeat first [apply list_elem_of_here | apply list_elem_of_further].

(** ** Partial updates *)

(** C8: every field of ScenarioUpdate is optional with default None, and
    the empty set of keyword arguments validates, giving an instance all of
    whose attributes are None. *)
Theorem C8_scenario_update_empty_patch (now : clock) :
  Forall nullable (fields ScenarioUpdate) ∧
  ∃ r, validate now ScenarioUpdate ∅ = Ok r ∧
       Forall (λ f, r !! fname f = Some VNone) (fields ScenarioUpdate).
Proof.
  split.
  - repeat constructor; eauto.
  - by_validation. repeat constructor.
Qed.

(** ** Defaults of the balance components *)



(** ** Relations between attributes *)

(** C2: some ScenarioImpact input is accepted although its
    impact_absolute (5.00) is not scenario_value - baseline_value
    (90.00 - 100.00): the instance is built with the three values as
    passed. *)
Theorem C2_scenario_impact_relation_not_enforced :
  ∃ kw r b s i diff,
    validate utc_2025_06_01 ScenarioImpact kw = Ok r ∧
    r !! "baseline_value" = Some (VDecimal b) ∧
    r !! "scenario_value" = Some (VDecimal s) ∧
    r !! "impact_absolute" = Some (VDecimal i) ∧
    dec_sub s b = Some diff ∧
    dec_eqb i diff = false.
Proof.
  exists scenario_impact_kwargs,
    (instance_of (validate utc_2025_06_01 ScenarioImpact
                    scenario_impact_kwargs)),
    (Dec false 10000 (-2)), (Dec false 9000 (-2)), (Dec false 500 (-2)),
    (Dec true 1000 (-2)).
  split; [apply is_ok_instance; vm_compute; reflexivity|].
  repeat split; vm_compute; reflexivity.
Qed.

(** C3: some input whose end_date is strictly before its start_date is
    accepted both as a Scenario and as a ScenarioCreate, and the instance
    keeps the two dates as passed. *)
Theorem C3_scenario_dates_order_not_enforced :
  ∃ kw s e,
    kw !! "start_date" = Some (VDate s) ∧
    kw !! "end_date" = Some (VDate e) ∧
    date_ltb e s = true ∧
    (∃ r, validate utc_2025_06_01 Scenario kw = Ok r ∧
          r !! "start_date" = Some (VDate s) ∧
          r !! "end_date" = Some (VDate e)) ∧
    (∃ r, validate utc_2025_06_01 ScenarioCreate kw = Ok r ∧
          r !! "start_date" = Some (VDate s) ∧
          r !! "end_date" = Some (VDate e)).
Proof.
  exists scenario_kwargs, (mkdate 2025 9 10), (mkdate 2025 9 1).
  do 3 (split; [vm_compute; reflexivity|]).
  split; by_validation; split; vm_compute; reflexivity.
Qed.

(** Validation of SeasonalPattern.month: it takes the integers 1 to 12 and
    no other; a smaller or a larger one makes the validation fail (whatever
    the other arguments), and one in the range, passed to an input that was
    accepted, is accepted and stored. *)
Lemma seasonal_month_validated
    (now : clock) (kw : gmap string value) (z : Z) :
  ((z < 1)%Z →
   rejects_with now SeasonalPattern (<["month" := VInt z]> kw)
     "month" (GreaterThanEqual 1)) ∧
  ((12 < z)%Z →
   rejects_with now SeasonalPattern (<["month" := VInt z]> kw)
     "month" (LessThanEqual 12)) ∧
  (accepts now SeasonalPattern kw → (1 ≤ z ≤ 12)%Z →
   ∃ r, validate now SeasonalPattern (<["month" := VInt z]> kw) = Ok r ∧
        r !! "month" = Some (VInt z)).
Proof.
  pose (f := (attr "month" Int & set_ge 1 & set_le 12)%field).
  destruct (check_int_between f 1 12 z eq_refl eq_refl) as (Hin & Hlo & Hhi).
  repeat split.
  - intros Hz. apply (set_attribute_error now _ _ f); [reflexivity|].
    apply Hlo; lia.
  - intros Hz. apply (set_attribute_error now _ _ f); [reflexivity|].
    by apply Hhi.
  - intros Hacc Hz. apply (set_attribute_Ok now _ _ f); auto.
    apply catalog_NoDup; elem_tac.
Qed.

(** The declaration of an attribute, found by evaluation. *)
Ltac get_field m n f Hf :=
  let o := eval vm_compute in (field_of m n) in
  match o with
  | Some ?x => pose (f := x);
               assert (field_of m n = Some f) as Hf by (vm_compute; reflexivity)
  end.

(** Validation of hurricane_category of Scenario and of ScenarioCreate and
    of category of HurricaneHistorical: they take the integers 1 to 5 and
    no other; a smaller or a larger one makes the validation fail, one in
    the range passed to an accepted input is accepted and stored;
    hurricane_category may moreover be left out or be None, and is None
    then. *)
Lemma hurricane_category_validated
    (now : clock) (m : model) (n : string) (kw : gmap string value)
    (z : Z) :
  (m, n) ∈ category_fields →
  ((z < 1)%Z →
   rejects_with now m (<[n := VInt z]> kw) n (GreaterThanEqual 1)) ∧
  ((5 < z)%Z →
   rejects_with now m (<[n := VInt z]> kw) n (LessThanEqual 5)) ∧
  (accepts now m kw → (1 ≤ z ≤ 5)%Z →
   ∃ r, validate now m (<[n := VInt z]> kw) = Ok r ∧
        r !! n = Some (VInt z)) ∧
  (n = "hurricane_category" → accepts now m kw →
   (∃ r, validate now m (delete n kw) = Ok r ∧ r !! n = Some VNone) ∧
   (∃ r, validate now m (<[n := VNone]> kw) = Ok r ∧ r !! n = Some VNone)).
Proof.
  intros Hmn.
  assert (m ∈ catalog) as Hm.
  { unfold category_fields in Hmn.
    repeat (apply elem_of_cons in Hmn as [Hmn | Hmn];
            [injection Hmn as -> ->; elem_tac|]).
    by apply elem_of_nil in Hmn. }
  apply catalog_NoDup in Hm.
  unfold category_fields in Hmn.
  repeat (apply elem_of_cons in Hmn as [Hmn | Hmn];
          [injection Hmn as -> ->|]);
    [ get_field Scenario "hurricane_category" f Hf
    | get_field ScenarioCreate "hurricane_category" f Hf
    | get_field HurricaneHistorical "category" f Hf
    | by apply elem_of_nil in Hmn ];
    destruct (check_int_between f 1 5 z eq_refl eq_refl) as (Hin & Hlo & Hhi);
    (split; [|split; [|split]]).
  all: try (intros Hz; apply (set_attribute_error now _ _ f _ _ _ Hf);
            first [apply Hlo; lia | by apply Hhi]).
  all: try (intros Hacc Hz; apply (set_attribute_Ok now _ _ f); auto; fail).
  all: intros Hn Hacc; try discriminate Hn.
  all: split;
    [ apply (omit_attribute_Ok now _ _ f); auto
    | apply (set_attribute_Ok now _ _ f); auto ].
Qed.

(** Validation of production_disruption_days, recovery_days_production and
    recovery_days_refining of HurricaneHistorical: they take the integers
    from 0 up; a negative one makes the validation fail, a non-negative one
    passed to an accepted input is accepted and stored, and one left out
    is 0. *)
Lemma day_counts_validated
    (now : clock) (n : string) (kw : gmap string value) (z : Z) :
  n ∈ day_counts →
  ((z < 0)%Z →
   rejects_with now HurricaneHistorical (<[n := VInt z]> kw)
     n (GreaterThanEqual 0)) ∧
  (accepts now HurricaneHistorical kw → (0 ≤ z)%Z →
   ∃ r, validate now HurricaneHistorical (<[n := VInt z]> kw) = Ok r ∧
        r !! n = Some (VInt z)) ∧
  (accepts now HurricaneHistorical kw →
   ∃ r, validate now HurricaneHistorical (delete n kw) = Ok r ∧
        r !! n = Some (VInt 0)).
Proof.
  intros Hn.
  assert (NoDup (field_names HurricaneHistorical)) as Hnd
    by (apply catalog_NoDup; elem_tac).
  unfold day_counts in Hn.
  repeat (apply elem_of_cons in Hn as [-> | Hn]);
    [ get_field HurricaneHistorical "production_disruption_days" f Hf
    | get_field HurricaneHistorical "recovery_days_production" f Hf
    | get_field HurricaneHistorical "recovery_days_refining" f Hf
    | by apply elem_of_nil in Hn ];
    destruct (check_int_at_least f 0 z eq_refl eq_refl) as (Hin & Hlo);
    (split; [|split]).
  all: try (intros Hz; apply (set_attribute_error now _ _ f _ _ _ Hf);
            by apply Hlo).
  all: try (intros Hacc Hz; apply (set_attribute_Ok now _ _ f); auto; fail).
  all: intros Hacc; apply (omit_attribute_Ok now _ _ f); auto.
Qed.

(** ** Enumerations *)

(** The members declared in the module are those the glossary lists. *)
Lemma enum_values_glossary e : enum_values e = glossary e.
Proof. destruct e; reflexivity. Qed.

Lemma validate_enum_str now f e s :
  enum_of (ann f) = Some e →
  validate_field now f (Some (VStr s)) = check_enum e s.
Proof.
  unfold validate_field. destruct (ann f) as [| | | | | |e'| | |a];
    try discriminate; simpl.
  - by intros [= ->].
  - destruct a; try discriminate. by intros [= ->].
Qed.

Lemma check_enum_spec e s :
  (s ∈ glossary e → check_enum e s = inr (VEnum e s)) ∧
  (s ∉ glossary e → check_enum e s = inl (EnumError e)).
Proof.
  rewrite <- (enum_values_glossary e). unfold check_enum.
  destruct (bool_decide_reflect (s ∈ enum_values e)); split; intros; done.
Qed.

Lemma enum_field_named m f e :
  m ∈ catalog → f ∈ fields m → enum_of (ann f) = Some e →
  (fname f, e) ∈ enum_fields.
Proof.
  intros Hm Hf He.
  pose proof (catalog_forallb
    (λ _ f, match enum_of (ann f) with
            | Some e => bool_decide ((fname f, e) ∈ enum_fields)
            | None => true
            end) eq_refl m f Hm Hf) as H.
  simpl in H. rewrite He in H. by apply bool_decide_eq_true_1 in H.
Qed.

(** Validation of the enumeration attributes: an attribute annotated with
    an enumeration is one of data_source, product_type, disposition_type,
    scenario_type and severity_level, and a string passed for it is
    accepted exactly when the glossary lists it for that enumeration: any
    other string makes the validation fail with an enumeration error, a
    listed one passed to an accepted input is accepted and stored as the
    member. *)
Lemma enum_fields_validated
    (now : clock) (m : model) (f : field) (e : enum) (s : string)
    (kw : gmap string value) :
  m ∈ catalog → f ∈ fields m → enum_of (ann f) = Some e →
  (fname f, e) ∈ enum_fields ∧
  (s ∉ glossary e →
   rejects_with now m (<[fname f := VStr s]> kw) (fname f) (EnumError e)) ∧
  (accepts now m kw →
   (accepts now m (<[fname f := VStr s]> kw) ↔ s ∈ glossary e) ∧
   (s ∈ glossary e →
    ∃ r, validate now m (<[fname f := VStr s]> kw) = Ok r ∧
         r !! fname f = Some (VEnum e s))).
Proof.
  intros Hm Hf He.
  pose proof (catalog_NoDup m Hm) as Hnd.
  pose proof (validate_enum_str now f e s He) as Hv.
  destruct (check_enum_spec e s) as [Hyes Hno].
  split; [by eapply enum_field_named|]. split.
  - intros Hs. apply insert_rejects; [done|]. rewrite Hv. auto.
  - intros Hacc. split.
    + rewrite (accepts_insert now m kw f (VStr s) Hnd Hf Hacc), Hv. split.
      * intros [v' Hv']. destruct (decide (s ∈ glossary e)) as [|Hn]; [done|].
        rewrite (Hno Hn) in Hv'. discriminate.
      * intros Hs. rewrite (Hyes Hs). eauto.
    + intros Hs.
      destruct (proj2 (accepts_insert now m kw f (VStr s) Hnd Hf Hacc))
        as [r Hr].
      { rewrite Hv, (Hyes Hs). eauto. }
      exists r. split; [done|].
      eapply validate_Ok_passed; eauto; [apply lookup_insert_eq|].
      rewrite Hv. auto.
Qed.

(** ** Decimal digits *)






Section DecimalArithmetic.
Local Open Scope Z_scope.



End DecimalArithmetic.






Lemma validate_decimal now f d :
  is_decimal (ann f) = true →
  validate_field now f (Some (VDecimal d)) = check_decimal f d.
Proof.
  unfold validate_field. destruct (ann f) as [| | | | | | | | |a];
    try discriminate; simpl; [done|].
  destruct a; try discriminate. done.
Qed.

Lemma check_decimal_inr f d v :
  check_decimal f d = inr v → v = VDecimal d.
Proof.
  unfold check_decimal.
  destruct (max_digits f), (decimal_places f);
    try (destruct (decimal_digits_info d) as [[? ?]|]; [|discriminate];
         destruct (check_digits _ _ _ _); [discriminate|]);
    by intros [= <-].
Qed.


(** Every decimal attribute of the module is given both a precision and a
    scale, the scale being the smaller. *)
Lemma decimal_fields_configured m f :
  m ∈ catalog → f ∈ fields m → is_decimal (ann f) = true →
  ∃ md dp, max_digits f = Some md ∧ decimal_places f = Some dp ∧
           (dp < md)%nat.
Proof.
  intros Hm Hf Hd.
  pose proof (catalog_forallb
    (λ _ f, if is_decimal (ann f)
            then match max_digits f, decimal_places f with
                 | Some md, Some dp => (dp <? md)%nat
                 | _, _ => false
                 end
            else true) eq_refl m f Hm Hf) as H.
  simpl in H. rewrite Hd in H.
  destruct (max_digits f) as [md|], (decimal_places f) as [dp|];
    try discriminate.
  exists md, dp. repeat split. by apply Nat.ltb_lt.
Qed.


(** ** Foreign keys *)

(** An attribute with a default causes no error when it is left out. *)
Lemma omitted_default_no_error now m kw f e :
  NoDup (field_names m) → f ∈ fields m → kw !! fname f = None →
  default f ≠ Required →
  ¬ rejects_with now m kw (fname f) e.
Proof.
  intros Hnd Hf Hkw Hdef Hrej.
  apply rejects_with_inv in Hrej as (g & Hg & Hname & He).
  assert (g = f) as -> by eauto using field_name_inj.
  rewrite Hkw in He. simpl in He. destruct (default f); done.
Qed.

(** PriceForecast.scenario_id is not required: the sample forecast passes
    no scenario_id, is not rejected, and is built with scenario_id None. *)
Lemma C1_price_forecast_without_scenario_accepted :
  price_forecast_kwargs !! "scenario_id" = None ∧
  ¬ rejects utc_2025_06_01 PriceForecast price_forecast_kwargs ∧
  ∃ r, validate utc_2025_06_01 PriceForecast price_forecast_kwargs = Ok r ∧
       r !! "scenario_id" = Some VNone.
Proof.
  split; [reflexivity|]. split.
  - apply accepts_not_rejects. by_validation.
  - by_validation. reflexivity.
Qed.

(** C1 (amended): the attributes declared as foreign keys are
    SupplyDisposition.data_point_id, ScenarioImpact.scenario_id and
    PriceForecast.scenario_id.  The one of ScenarioImpact is a required
    int: leaving it out makes the validation fail with a missing-field
    error.  The other two are Optional with default None: leaving one out
    causes no error on it, and the instance built has None there. *)
Theorem C1_foreign_keys_nullable_except_scenario_impact
    (now : clock) (m : model) (f : field) (kw : gmap string value) :
  m ∈ catalog → f ∈ fields m → is_Some (foreign_key f) →
  kw !! fname f = None →
  (mname m, fname f) ∈ foreign_keys ∧
  (mname m = "ScenarioImpact" →
   ann f = Int ∧ default f = Required ∧
   rejects_with now m kw (fname f) Missing) ∧
  (mname m ≠ "ScenarioImpact" →
   nullable f ∧
   (∀ e, ¬ rejects_with now m kw (fname f) e) ∧
   (∀ r, validate now m kw = Ok r → r !! fname f = Some VNone)).
Proof.
  intros Hm Hf Hfk Hkw.
  pose proof (catalog_NoDup m Hm) as Hnd.
  assert (f ∈ fields m) as Hf' by done.
  unfold catalog in Hm. elem_cases Hm; simpl in Hf; elem_cases Hf;
    try (by destruct Hfk as [? [=]]);
    (split; [elem_tac|]); split; try (intros [=]); try (intros Hne; by destruct Hne).
  - intros _. split; [|split].
    + split; [by eexists | done].
    + intros e. by apply omitted_default_no_error.
    + intros r Hr. by eapply validate_Ok_omitted.
  - repeat split.
    apply field_error_rejects; [done|]. by rewrite Hkw.
  - intros _. split; [|split].
    + split; [by eexists | done].
    + intros e. by apply omitted_default_no_error.
    + intros r Hr. by eapply validate_Ok_omitted.
Qed.

Lemma C1_foreign_keys_nullable_except_scenario_impact_witness :
  rejects_with utc_2025_06_01 ScenarioImpact
    (delete "scenario_id" scenario_impact_kwargs) "scenario_id" Missing ∧
  (∃ r, validate utc_2025_06_01 SupplyDisposition supply_disposition_kwargs
        = Ok r ∧
        r !! "data_point_id" = Some VNone) ∧
  (∃ r, validate utc_2025_06_01 PriceForecast price_forecast_kwargs = Ok r ∧
        r !! "scenario_id" = Some VNone).
Proof.
  split; [|split].
  - pose (f := (attr "scenario_id" Int & set_foreign_key "scenarios.id")%field).
    assert (ScenarioImpact ∈ catalog) as Hm by elem_tac.
    assert (f ∈ fields ScenarioImpact) as Hf by elem_tac.
    assert (is_Some (foreign_key f)) as Hfk by (by eexists).
    assert (delete "scenario_id" scenario_impact_kwargs !! fname f = None)
      as Hkw by (vm_compute; reflexivity).
    apply (C1_foreign_keys_nullable_except_scenario_impact utc_2025_06_01
             ScenarioImpact f (delete "scenario_id" scenario_impact_kwargs)
             Hm Hf Hfk Hkw).
    reflexivity.
  - pose (f := (attr "data_point_id" (Optional Int) & set_default VNone
                & set_foreign_key "eia_data_points.id")%field).
    assert (SupplyDisposition ∈ catalog) as Hm by elem_tac.
    assert (f ∈ fields SupplyDisposition) as Hf by elem_tac.
    assert (is_Some (foreign_key f)) as Hfk by (by eexists).
    by_validation.
    apply (C1_foreign_keys_nullable_except_scenario_impact utc_2025_06_01
             SupplyDisposition f supply_disposition_kwargs
             Hm Hf Hfk eq_refl).
    + discriminate.
    + apply is_ok_instance; vm_compute; reflexivity.
  - pose (f := (attr "scenario_id" (Optional Int) & set_default VNone
                & set_foreign_key "scenarios.id")%field).
    assert (PriceForecast ∈ catalog) as Hm by elem_tac.
    assert (f ∈ fields PriceForecast) as Hf by elem_tac.
    assert (is_Some (foreign_key f)) as Hfk by (by eexists).
    by_validation.
    apply (C1_foreign_keys_nullable_except_scenario_impact utc_2025_06_01
             PriceForecast f price_forecast_kwargs Hm Hf Hfk eq_refl).
    + discriminate.
    + apply is_ok_instance; vm_compute; reflexivity.
Defined.

(** * Further properties of the catalog *)

(** ** Values against annotations *)

Lemma check_int_inr f z v : check_int f z = inr v → v = VInt z.
Proof.
  unfold check_int, check_ge.
  destruct (le f) as [hi|], (ge f) as [lo|];
    repeat (match goal with |- context [if ?b then _ else _] => destruct b end);
    (discriminate || by intros [= <-]).
Qed.

Lemma check_str_inr f s v : check_str f s = inr v → v = VStr s.
Proof.
  unfold check_str. destruct (max_length f) as [n|];
    [destruct (n <? char_length s)%nat|];
    (discriminate || by intros [= <-]).
Qed.

Lemma check_enum_inr e s v : check_enum e s = inr v → v = VEnum e s.
Proof.
  unfold check_enum. destruct (bool_decide _);
    (discriminate || by intros [= <-]).
Qed.

(** A missing-field error never comes from a value that was passed. *)
Lemma validate_value_not_missing a f v : validate_value a f v ≠ inl Missing.
Proof.
  induction a as [| | | | | |e| | |a IH]; simpl.
  10: { destruct v; (done || apply IH). }
  all: destruct v; try discriminate.
  - unfold check_int, check_ge.
    destruct (le f), (ge f);
      repeat (match goal with |- context [if ?b then _ else _] => destruct b end);
      discriminate.
  - unfold check_str. destruct (max_length f);
      repeat (match goal with |- context [if ?b then _ else _] => destruct b end);
      discriminate.
  - unfold check_decimal.
    destruct (max_digits f) as [m|], (decimal_places f) as [p|];
      try discriminate;
      (destruct (decimal_digits_info d) as [[decimals digits]|];
       [|discriminate]);
      unfold check_digits, first_error;
      try destruct (m <? digits)%nat; try destruct (p <? decimals)%nat;
      try destruct (m - p <? digits - decimals)%nat; discriminate.
  - unfold check_enum. destruct (bool_decide _); discriminate.
  - unfold check_enum. destruct (bool_decide (e0 = e)); [|discriminate].
    destruct (bool_decide _); discriminate.
  - destruct (forallb is_str l); discriminate.
Qed.

(** What validation returns passes validation again, unchanged. *)
Lemma validate_value_idem a f v v' :
  validate_value a f v = inr v' → validate_value a f v' = inr v'.
Proof.
  revert v v'. induction a as [| | | | | |e| | |a IH]; intros v v'; simpl.
  10: { destruct v; try (by intros [= <-]);
          intros H; apply IH in H; by destruct v'. }
  all: destruct v; try discriminate; try (by intros [= <-]).
  - intros H. pose proof (check_int_inr _ _ _ H) as ->. done.
  - intros H. pose proof (check_str_inr _ _ _ H) as ->. done.
  - intros H. pose proof (check_decimal_inr _ _ _ H) as ->. done.
  - intros H. pose proof (check_enum_inr _ _ _ H) as ->.
    by rewrite bool_decide_eq_true_2.
  - destruct (bool_decide_reflect (e0 = e)) as [-> | ]; [|discriminate].
    intros H. pose proof (check_enum_inr _ _ _ H) as ->.
    by rewrite bool_decide_eq_true_2.
  - destruct (forallb is_str l) eqn:Hl; [|discriminate].
    intros [= <-]. by rewrite Hl.
Qed.

(** Only the constraints of a declaration matter to a value. *)
Lemma validate_value_ext a f g v :
  same_constraints f g = true → validate_value a f v = validate_value a g v.
Proof.
  unfold same_constraints. rewrite !andb_true_iff, !bool_decide_eq_true.
  intros [[[[Hge Hle] Hlen] Hdp] Hmd].
  revert v. induction a as [| | | | | |e| | |a IH]; intros v; simpl;
    try done.
  - destruct v; try done. unfold check_int, check_ge. by rewrite Hge, Hle.
  - destruct v; try done. unfold check_str. by rewrite Hlen.
  - destruct v; try done. unfold check_decimal. by rewrite Hdp, Hmd.
  - destruct v; (done || apply IH).
Qed.

(** The attributes of an instance are the declared ones. *)
Lemma validate_Ok_undeclared now m kw r n :
  validate now m kw = Ok r → n ∉ field_names m → r !! n = None.
Proof.
  intros Hr Hn. apply validate_Ok_inv in Hr as [_ ->].
  apply not_elem_of_list_to_map_1. intros Hin. apply Hn.
  eapply elem_of_sublist; [exact Hin | apply validate_fields_names].
Qed.

Lemma validate_fields_ext now fs kw1 kw2 :
  (∀ f, f ∈ fs →
        validate_field now f (kw1 !! fname f)
        = validate_field now f (kw2 !! fname f)) →
  validate_fields now fs kw1 = validate_fields now fs kw2.
Proof.
  induction fs as [|g fs IH]; intros H; simpl; [done|].
  rewrite IH by (intros f Hf; apply H; by apply list_elem_of_further).
  by rewrite (H g) by apply list_elem_of_here.
Qed.

Lemma validate_ext now m kw1 kw2 :
  (∀ f, f ∈ fields m →
        validate_field now f (kw1 !! fname f)
        = validate_field now f (kw2 !! fname f)) →
  validate now m kw1 = validate now m kw2.
Proof.
  intros H. unfold validate. by rewrite (validate_fields_ext now _ kw1 kw2 H).
Qed.

Lemma field_of_None m n f : field_of m n = None → f ∈ fields m → fname f ≠ n.
Proof.
  intros Hnone Hf Heq. unfold field_of in Hnone.
  apply list_elem_of_In in Hf.
  pose proof (find_none _ _ Hnone f Hf) as Hb. simpl in Hb.
  apply String.eqb_neq in Hb. done.
Qed.

Lemma field_of_declared m f :
  NoDup (field_names m) → f ∈ fields m → field_of m (fname f) = Some f.
Proof.
  intros Hnd Hf. destruct (field_of m (fname f)) as [g|] eqn:Hg.
  - apply field_of_Some in Hg as [Hgin Hname].
    f_equal. by eapply field_name_inj.
  - by pose proof (field_of_None m (fname f) f Hg Hf).
Qed.

(** ** Required attributes *)

(** X2: the attributes without default are, class by class, those of
    [required_table]; with no keyword argument at all a validation
    reports exactly these as missing, in this order, and nothing else, so
    that ScenarioUpdate is the only class that validates from nothing. *)
Theorem empty_input_reports_required (now : clock) :
  map (λ m, (mname m, required_attributes m)) catalog = required_table ∧
  map (λ m, (mname m, errors_of (validate now m ∅))) catalog
  = map (λ '(c, ns), (c, map (λ n, (n, Missing)) ns)) required_table ∧
  is_ok (validate now ScenarioUpdate ∅) = true.
Proof. split; [|split]; vm_compute; reflexivity. Qed.

(** ** None *)

Lemma is_default_none_spec f :
  is_default_none f = true ↔ default f = Default VNone.
Proof.
  unfold is_default_none. destruct (default f) as [|v|]; try (split; done).
  destruct v; split; (done || discriminate).
Qed.

(** X3: across the catalog the attributes annotated Optional are exactly
    those whose default is None; and under validation (model_validate)
    None passed explicitly for an attribute, to an input that was accepted,
    is accepted exactly when the attribute is Optional: for an attribute
    that merely has a default (a flag, a count, a decimal component)
    validation refuses None. *)
Theorem none_accepted_iff_optional
    (now : clock) (m : model) (f : field) (kw : gmap string value) :
  m ∈ catalog → f ∈ fields m → accepts now m kw →
  (is_optional (ann f) = true ↔ default f = Default VNone) ∧
  (accepts now m (<[fname f := VNone]> kw) ↔ is_optional (ann f) = true) ∧
  (is_optional (ann f) = true →
   ∃ r, validate now m (<[fname f := VNone]> kw) = Ok r ∧
        r !! fname f = Some VNone).
Proof.
  intros Hm Hf Hacc.
  pose proof (catalog_NoDup m Hm) as Hnd.
  assert (is_optional (ann f) = true →
          validate_field now f (Some VNone) = inr VNone) as Hyes.
  { unfold validate_field. destruct (ann f); (discriminate || done). }
  assert (is_optional (ann f) = false →
          ∃ e, validate_field now f (Some VNone) = inl e) as Hno.
  { unfold validate_field. destruct (ann f); try discriminate; simpl; eauto. }
  split; [|split].
  - rewrite <- is_default_none_spec.
    pose proof (catalog_forallb
      (λ _ f, bool_decide (is_optional (ann f) = is_default_none f))
      eq_refl m f Hm Hf) as H.
    apply bool_decide_eq_true_1 in H. by rewrite H.
  - rewrite (accepts_insert now m kw f VNone Hnd Hf Hacc).
    destruct (is_optional (ann f)) eqn:Hopt.
    + split; [done|]. intros _. rewrite Hyes by done. eauto.
    + split; [|done]. intros [v Hv]. destruct Hno as [e He]; [done|].
      congruence.
  - intros Hopt. apply field_of_declared in Hf as Hfo; [|done].
    apply (set_attribute_Ok now m (fname f) f); auto.
Qed.

Lemma none_accepted_iff_optional_witness :
  (∃ r, validate utc_2025_06_01 Scenario
          (<["created_by" := VNone]> scenario_kwargs) = Ok r ∧
        r !! "created_by" = Some VNone) ∧
  ¬ accepts utc_2025_06_01 Scenario (<["is_active" := VNone]> scenario_kwargs).
Proof.
  assert (Scenario ∈ catalog) as Hm by elem_tac.
  assert (accepts utc_2025_06_01 Scenario scenario_kwargs) as Hacc
    by by_validation.
  split.
  - pose (f := (attr "created_by" (Optional Str) & set_default VNone
                & set_max_length 100)%field).
    assert (f ∈ fields Scenario) as Hf by elem_tac.
    apply (none_accepted_iff_optional utc_2025_06_01 Scenario f
             scenario_kwargs Hm Hf Hacc).
    reflexivity.
  - pose (f := (attr "is_active" Bool & set_default (VBool true))%field).
    assert (f ∈ fields Scenario) as Hf by elem_tac.
    intros H.
    apply (none_accepted_iff_optional utc_2025_06_01 Scenario f
             scenario_kwargs Hm Hf Hacc) in H.
    discriminate H.
Defined.

(** ** Strings *)

Lemma validate_string now f s :
  is_string (ann f) = true →
  validate_field now f (Some (VStr s)) = check_str f s.
Proof.
  unfold validate_field. destruct (ann f) as [| | | | | | | | |a];
    try discriminate; simpl; [done|].
  destruct a; try discriminate. done.
Qed.

(** X4: under validation (model_validate), for every str attribute of the
    catalog, a string of more characters than the declared max_length
    makes the validation fail with a too-long error, and a string passed
    to an accepted input is accepted exactly when its number of characters
    is within max_length; the only str attributes declared without
    max_length are those of SupplyDispositionSummary, for which validation
    takes strings of any length. *)
Theorem string_accepted_iff_within_max_length
    (now : clock) (m : model) (f : field) (kw : gmap string value)
    (s : string) :
  m ∈ catalog → f ∈ fields m → is_string (ann f) = true →
  (∀ n, max_length f = Some n → (n < char_length s)%nat →
        rejects_with now m (<[fname f := VStr s]> kw) (fname f)
          (StringTooLong n)) ∧
  (accepts now m kw →
   accepts now m (<[fname f := VStr s]> kw) ↔
   ∀ n, max_length f = Some n → (char_length s ≤ n)%nat) ∧
  (max_length f = None → mname m = "SupplyDispositionSummary").
Proof.
  intros Hm Hf Hs.
  pose proof (catalog_NoDup m Hm) as Hnd.
  pose proof (validate_string now f s Hs) as Hv.
  split; [|split].
  - intros n Hn Hlt. apply insert_rejects; [done|].
    rewrite Hv. unfold check_str. rewrite Hn.
    by destruct (Nat.ltb_spec n (char_length s)); [|lia].
  - intros Hacc.
    rewrite (accepts_insert now m kw f (VStr s) Hnd Hf Hacc), Hv.
    unfold check_str. destruct (max_length f) as [n|].
    + destruct (Nat.ltb_spec n (char_length s)); split.
      * intros [v [=]].
      * intros H'. specialize (H' n eq_refl). lia.
      * intros _ n' [= <-]. done.
      * eauto.
    + split; [done | eauto].
  - intros Hnone.
    pose proof (catalog_forallb
      (λ m f, if is_string (ann f)
              then match max_length f with
                   | Some _ => true
                   | None => bool_decide (mname m = "SupplyDispositionSummary")
                   end
              else true) eq_refl m f Hm Hf) as H.
    simpl in H. rewrite Hs, Hnone in H. by apply bool_decide_eq_true_1 in H.
Qed.

Lemma string_accepted_iff_within_max_length_witness :
  rejects_with utc_2025_06_01 DataAlert
    (<["threshold_operator" := VStr "greater than"]> data_alert_kwargs)
    "threshold_operator" (StringTooLong 10) ∧
  accepts utc_2025_06_01 DataAlert
    (<["threshold_operator" := VStr "≥≥≥≥"]> data_alert_kwargs).
Proof.
  pose (f := (attr "threshold_operator" (Optional Str) & set_default VNone
              & set_max_length 10)%field).
  assert (DataAlert ∈ catalog) as Hm by elem_tac.
  assert (f ∈ fields DataAlert) as Hf by elem_tac.
  split.
  - apply (string_accepted_iff_within_max_length utc_2025_06_01 DataAlert f
             data_alert_kwargs "greater than" Hm Hf eq_refl);
      [reflexivity | simpl; lia].
  - apply (string_accepted_iff_within_max_length utc_2025_06_01 DataAlert f
             data_alert_kwargs "≥≥≥≥" Hm Hf eq_refl); [by_validation|].
    intros n [= <-]. vm_compute. lia.
Defined.

(** ** Integers *)

Lemma validate_int now f z :
  is_int (ann f) = true →
  validate_field now f (Some (VInt z)) = check_int f z.
Proof.
  unfold validate_field. destruct (ann f) as [| | | | | | | | |a];
    try discriminate; simpl; [done|].
  destruct a; try discriminate. done.
Qed.

Lemma check_int_in_bounds f z :
  (in_bounds f z = true → check_int f z = inr (VInt z)) ∧
  (in_bounds f z = false → ∃ e, check_int f z = inl e).
Proof.
  unfold in_bounds, check_int, check_ge.
  destruct (le f) as [hi|], (ge f) as [lo|]; simpl;
    try destruct (Z.ltb_spec hi z); try destruct (Z.ltb_spec z lo);
    try destruct (Z.leb_spec lo z); try destruct (Z.leb_spec z hi);
    simpl; split; intros; try discriminate; try lia; eauto.
Qed.

(** X5: under validation (model_validate), for every int attribute of the
    catalog, an integer passed to an accepted input is accepted exactly
    when it is within the declared bounds, and is stored as passed; the
    int attributes declared without any bound are the identifiers id,
    data_point_id and scenario_id, for which validation therefore takes
    every integer, zero and negative ones included. *)
Theorem int_accepted_iff_in_bounds
    (now : clock) (m : model) (f : field) (kw : gmap string value)
    (z : Z) :
  m ∈ catalog → f ∈ fields m → is_int (ann f) = true →
  accepts now m kw →
  (accepts now m (<[fname f := VInt z]> kw) ↔ in_bounds f z = true) ∧
  (in_bounds f z = true →
   ∃ r, validate now m (<[fname f := VInt z]> kw) = Ok r ∧
        r !! fname f = Some (VInt z)) ∧
  (ge f = None ∧ le f = None ↔ fname f ∈ unbounded_integers).
Proof.
  intros Hm Hf Hi Hacc.
  pose proof (catalog_NoDup m Hm) as Hnd.
  pose proof (validate_int now f z Hi) as Hv.
  destruct (check_int_in_bounds f z) as [Hyes Hno].
  split; [|split].
  - rewrite (accepts_insert now m kw f (VInt z) Hnd Hf Hacc), Hv.
    destruct (in_bounds f z).
    + rewrite Hyes by done. split; eauto.
    + destruct Hno as [e ->]; [done|]. split; [intros [v [=]] | done].
  - intros Hb. apply (set_attribute_Ok now m (fname f) f); auto.
    + by apply field_of_declared.
    + rewrite Hv. auto.
  - pose proof (catalog_forallb
      (λ _ f, if is_int (ann f)
              then bool_decide
                     (bool_decide (ge f = None ∧ le f = None)
                      = bool_decide (fname f ∈ unbounded_integers))
              else true) eq_refl m f Hm Hf) as H.
    simpl in H. rewrite Hi in H. apply bool_decide_eq_true_1 in H.
    by rewrite <- (bool_decide_eq_true (ge f = None ∧ le f = None)), H,
      bool_decide_eq_true.
Qed.

Lemma int_accepted_iff_in_bounds_witness :
  (∃ r, validate utc_2025_06_01 ScenarioImpact
          (<["scenario_id" := VInt (-7)]> scenario_impact_kwargs) = Ok r ∧
        r !! "scenario_id" = Some (VInt (-7))) ∧
  ¬ accepts utc_2025_06_01 HurricaneHistorical
      (<["year" := VInt 1949]> hurricane_historical_kwargs).
Proof.
  split.
  - pose (f := (attr "scenario_id" Int & set_foreign_key "scenarios.id")%field).
    assert (ScenarioImpact ∈ catalog) as Hm by elem_tac.
    assert (f ∈ fields ScenarioImpact) as Hf by elem_tac.
    apply (int_accepted_iff_in_bounds utc_2025_06_01 ScenarioImpact f
             scenario_impact_kwargs (-7) Hm Hf eq_refl);
      [by_validation | reflexivity].
  - pose (f := (attr "year" Int & set_ge 1950)%field).
    assert (HurricaneHistorical ∈ catalog) as Hm by elem_tac.
    assert (f ∈ fields HurricaneHistorical) as Hf by elem_tac.
    intros H.
    apply (int_accepted_iff_in_bounds utc_2025_06_01 HurricaneHistorical f
             hurricane_historical_kwargs 1949 Hm Hf eq_refl) in H;
      [discriminate H | by_validation].
Defined.

(** X6: under validation (model_validate), years_of_data,
    refresh_interval_minutes, default_date_range_days,
    check_frequency_minutes and cooldown_hours (on SeasonalPattern,
    DashboardConfig, DashboardConfigCreate and DataAlert) take the integers
    from 1 up, with no upper bound: zero or a negative one makes the
    validation fail, one from 1 up passed to an accepted input is accepted
    and stored, and one left out takes its default (10, 60, 365, 60 and
    24). *)
Theorem positive_counts_at_least_one
    (now : clock) (m : model) (n : string) (d : Z)
    (kw : gmap string value) (z : Z) :
  (m, n, d) ∈ positive_counts →
  ((z < 1)%Z →
   rejects_with now m (<[n := VInt z]> kw) n (GreaterThanEqual 1)) ∧
  (accepts now m kw → (1 ≤ z)%Z →
   ∃ r, validate now m (<[n := VInt z]> kw) = Ok r ∧
        r !! n = Some (VInt z)) ∧
  (accepts now m kw →
   ∃ r, validate now m (delete n kw) = Ok r ∧ r !! n = Some (VInt d)).
Proof.
  intros Hmn.
  assert (m ∈ catalog) as Hm.
  { unfold positive_counts in Hmn.
    repeat (apply elem_of_cons in Hmn as [Hmn | Hmn];
            [injection Hmn as -> -> ->; elem_tac|]).
    by apply elem_of_nil in Hmn. }
  apply catalog_NoDup in Hm.
  unfold positive_counts in Hmn.
  repeat (apply elem_of_cons in Hmn as [Hmn | Hmn];
          [injection Hmn as -> -> ->|]);
    [ get_field SeasonalPattern "years_of_data" f Hf
    | get_field DashboardConfig "refresh_interval_minutes" f Hf
    | get_field DashboardConfig "default_date_range_days" f Hf
    | get_field DataAlert "check_frequency_minutes" f Hf
    | get_field DataAlert "cooldown_hours" f Hf
    | get_field DashboardConfigCreate "refresh_interval_minutes" f Hf
    | get_field DashboardConfigCreate "default_date_range_days" f Hf
    | by apply elem_of_nil in Hmn ];
    destruct (check_int_at_least f 1 z eq_refl eq_refl) as (Hin & Hlo);
    (split; [|split]).
  all: try (intros Hz; apply (set_attribute_error now _ _ f _ _ _ Hf);
            by apply Hlo).
  all: try (intros Hacc Hz; apply (set_attribute_Ok now _ _ f); auto; fail).
  all: intros Hacc; apply (omit_attribute_Ok now _ _ f); auto.
Qed.

Lemma positive_counts_at_least_one_witness :
  rejects_with utc_2025_06_01 DataAlert
    (<["cooldown_hours" := VInt 0]> data_alert_kwargs)
    "cooldown_hours" (GreaterThanEqual 1) ∧
  (∃ r, validate utc_2025_06_01 DashboardConfig
          (<["refresh_interval_minutes" := VInt 100000]>
             dashboard_config_kwargs) = Ok r ∧
        r !! "refresh_interval_minutes" = Some (VInt 100000)) ∧
  (∃ r, validate utc_2025_06_01 SeasonalPattern
          (delete "years_of_data" seasonal_pattern_kwargs) = Ok r ∧
        r !! "years_of_data" = Some (VInt 10)).
Proof.
  split; [|split].
  - apply (positive_counts_at_least_one utc_2025_06_01 DataAlert
             "cooldown_hours" 24 data_alert_kwargs 0); [elem_tac | lia].
  - apply (positive_counts_at_least_one utc_2025_06_01 DashboardConfig
             "refresh_interval_minutes" 60 dashboard_config_kwargs 100000);
      [elem_tac | by_validation | lia].
  - apply (positive_counts_at_least_one utc_2025_06_01 SeasonalPattern
             "years_of_data" 10 seasonal_pattern_kwargs 5);
      [elem_tac | by_validation].
Defined.

(** X7: under validation (model_validate), HurricaneHistorical.year is a
    required integer from 1950 up, with no upper bound: an earlier year
    makes the validation fail, a year from 1950 on passed to an accepted
    input is accepted and stored, and leaving the year out is reported as a
    missing field. *)
Theorem hurricane_year_from_1950
    (now : clock) (kw : gmap string value) (z : Z) :
  ((z < 1950)%Z →
   rejects_with now HurricaneHistorical (<["year" := VInt z]> kw)
     "year" (GreaterThanEqual 1950)) ∧
  (accepts now HurricaneHistorical kw → (1950 ≤ z)%Z →
   ∃ r, validate now HurricaneHistorical (<["year" := VInt z]> kw) = Ok r ∧
        r !! "year" = Some (VInt z)) ∧
  rejects_with now HurricaneHistorical (delete "year" kw) "year" Missing.
Proof.
  get_field HurricaneHistorical "year" f Hf.
  destruct (check_int_at_least f 1950 z eq_refl eq_refl) as (Hin & Hlo).
  split; [|split].
  - intros Hz. apply (set_attribute_error now _ _ f _ _ _ Hf). by apply Hlo.
  - intros Hacc Hz. apply (set_attribute_Ok now _ _ f); auto.
    apply catalog_NoDup; elem_tac.
  - apply field_of_Some in Hf as [Hf _].
    apply (field_error_rejects now HurricaneHistorical _ f); [done|].
    by rewrite lookup_delete_eq.
Qed.

Lemma hurricane_year_from_1950_witness :
  rejects_with utc_2025_06_01 HurricaneHistorical
    (<["year" := VInt 1949]> hurricane_historical_kwargs)
    "year" (GreaterThanEqual 1950) ∧
  ∃ r, validate utc_2025_06_01 HurricaneHistorical
         (<["year" := VInt 3000]> hurricane_historical_kwargs) = Ok r ∧
       r !! "year" = Some (VInt 3000).
Proof.
  split.
  - apply (hurricane_year_from_1950 utc_2025_06_01
             hurricane_historical_kwargs 1949). lia.
  - apply (hurricane_year_from_1950 utc_2025_06_01
             hurricane_historical_kwargs 3000); [by_validation | lia].
Defined.

(** ** Decimals *)





(** X9: under validation (model_validate), every Decimal attribute of the
    catalog refuses the numbers that are not finite: an infinity or a NaN
    makes the validation fail with a finite-number error, whatever the
    other arguments. *)
Theorem decimal_must_be_finite
    (now : clock) (m : model) (f : field) (d : Decimal)
    (kw : gmap string value) :
  m ∈ catalog → f ∈ fields m → is_decimal (ann f) = true →
  is_finite d = false →
  rejects_with now m (<[fname f := VDecimal d]> kw) (fname f) FiniteNumber.
Proof.
  intros Hm Hf Hd Hfin.
  destruct (decimal_fields_configured m f Hm Hf Hd)
    as (md & dp & Hmd & Hdp & _).
  apply insert_rejects; [done|]. rewrite validate_decimal by done.
  unfold check_decimal. rewrite Hmd, Hdp.
  by destruct d.
Qed.

Lemma decimal_must_be_finite_witness :
  rejects_with utc_2025_06_01 EIADataPoint
    (<["value" := VDecimal DecNaN]> eia_data_point_kwargs)
    "value" FiniteNumber.
Proof.
  pose (f := (attr "value" TDecimal & set_decimal_places 2
              & set_max_digits 15)%field).
  assert (EIADataPoint ∈ catalog) as Hm by elem_tac.
  assert (f ∈ fields EIADataPoint) as Hf by elem_tac.
  apply (decimal_must_be_finite utc_2025_06_01 EIADataPoint f DecNaN
           eia_data_point_kwargs Hm Hf eq_refl eq_refl).
Defined.

(** ** Defaults, instances and request shapes *)

(** Each declared default satisfies the annotation and the constraints of
    its own attribute. *)
Lemma catalog_defaults_valid now m f v :
  m ∈ catalog → f ∈ fields m →
  validate_field now f None = inr v →
  validate_value (ann f) f v = inr v.
Proof.
  intros Hm Hf. unfold catalog in Hm.
  elem_cases Hm; simpl in Hf; elem_cases Hf; simpl;
    (discriminate || (intros [= <-]; reflexivity)).
Qed.

(** An attribute of an instance passes the validation of its field. *)
Lemma revalidate now m kw r f v :
  m ∈ catalog → validate now m kw = Ok r → f ∈ fields m →
  r !! fname f = Some v →
  validate_value (ann f) f v = inr v.
Proof.
  intros Hm Hr Hf Hv.
  destruct (validate_Ok_lookup now m kw r f (catalog_NoDup m Hm) Hr Hf)
    as (w & Hw & Hrw).
  assert (w = v) as -> by congruence.
  destruct (kw !! fname f) as [x|] eqn:Hkw.
  - simpl in Hw. by eapply validate_value_idem.
  - by eapply catalog_defaults_valid.
Qed.

(** X10: every default declared in the catalog satisfies the constraints
    of its own attribute, so that passing it explicitly gives the same
    outcome (the same instance or the same errors) as leaving the attribute
    out. *)
Theorem passing_default_is_omitting
    (now : clock) (m : model) (f : field) (v : value)
    (kw : gmap string value) :
  m ∈ catalog → f ∈ fields m → default f = Default v →
  validate now m (<[fname f := v]> kw) = validate now m (delete (fname f) kw).
Proof.
  intros Hm Hf Hdef. pose proof (catalog_NoDup m Hm) as Hnd.
  apply validate_ext. intros g Hg.
  destruct (decide (fname f = fname g)) as [Heq | Hne].
  - assert (f = g) as <- by eauto using field_name_inj.
    rewrite lookup_insert_eq, lookup_delete_eq. simpl. rewrite Hdef.
    apply (catalog_defaults_valid now m f v Hm Hf). simpl. by rewrite Hdef.
  - by rewrite lookup_insert_ne, lookup_delete_ne.
Qed.

Lemma passing_default_is_omitting_witness :
  validate utc_2025_06_01 SeasonalPattern
    (<["trend_factor" := VDecimal (Dec false 10 (-1))]>
       seasonal_pattern_kwargs)
  = validate utc_2025_06_01 SeasonalPattern
      (delete "trend_factor" seasonal_pattern_kwargs).
Proof.
  pose (f := (attr "trend_factor" TDecimal
              & set_default (VDecimal Decimal_1_0) & set_decimal_places 4
              & set_max_digits 6)%field).
  assert (SeasonalPattern ∈ catalog) as Hm by elem_tac.
  assert (f ∈ fields SeasonalPattern) as Hf by elem_tac.
  apply (passing_default_is_omitting utc_2025_06_01 SeasonalPattern f
           (VDecimal (Dec false 10 (-1))) seasonal_pattern_kwargs Hm Hf
           eq_refl).
Defined.

Lemma validate_ext_clock now1 now2 m kw1 kw2 :
  (∀ f, f ∈ fields m →
        validate_field now1 f (kw1 !! fname f)
        = validate_field now2 f (kw2 !! fname f)) →
  validate now1 m kw1 = validate now2 m kw2.
Proof.
  intros H. unfold validate.
  assert (validate_fields now1 (fields m) kw1
          = validate_fields now2 (fields m) kw2) as ->; [|done].
  induction (fields m) as [|g fs IH]; simpl; [done|].
  rewrite IH by (intros f Hf; apply H; by apply list_elem_of_further).
  by rewrite (H g) by apply list_elem_of_here.
Qed.

(** X11: an instance built by a class of the catalog, given back to the
    same class as keyword arguments (at any later time), is accepted and
    gives the same instance. *)
Theorem validate_instance_again
    (now later : clock) (m : model) (kw r : gmap string value) :
  m ∈ catalog → validate now m kw = Ok r → validate later m r = Ok r.
Proof.
  intros Hm Hr. rewrite <- Hr.
  apply validate_ext_clock. intros f Hf.
  destruct (validate_Ok_lookup now m kw r f (catalog_NoDup m Hm) Hr Hf)
    as (v & Hv & Hrv).
  rewrite Hrv, Hv. simpl. by eapply revalidate.
Qed.

Lemma validate_instance_again_witness :
  validate utc_2026_01_01 HurricaneHistorical
    (instance_of (validate utc_2025_06_01 HurricaneHistorical
                    hurricane_historical_kwargs))
  = Ok (instance_of (validate utc_2025_06_01 HurricaneHistorical
                       hurricane_historical_kwargs)).
Proof.
  apply (validate_instance_again utc_2025_06_01 _ HurricaneHistorical
           hurricane_historical_kwargs); [elem_tac|].
  apply is_ok_instance; vm_compute; reflexivity.
Defined.

Lemma projects_spec C E :
  projects C E = true →
  (∀ f, f ∈ fields C → ∃ g, field_of E (fname f) = Some g) ∧
  (∀ g, g ∈ fields E →
        match field_of C (fname g) with
        | Some f => ann f = ann g ∧ same_constraints f g = true
        | None => default g ≠ Required
        end).
Proof.
  unfold projects. rewrite andb_true_iff, !forallb_forall.
  intros [H1 H2]. split.
  - intros f Hf. apply list_elem_of_In in Hf. specialize (H1 f Hf).
    destruct (field_of E (fname f)); [eauto | discriminate].
  - intros g Hg. apply list_elem_of_In in Hg. specialize (H2 g Hg).
    destruct (field_of C (fname g)) as [f|].
    + apply andb_true_iff in H2 as [Ha Hc].
      by apply bool_decide_eq_true_1 in Ha.
    + unfold is_required in H2. by destruct (default g).
Qed.

(** What a field of the wider class makes of an instance of the
    projection. *)
Lemma projection_field now later C E kw r g :
  C ∈ catalog → projects C E = true →
  validate now C kw = Ok r → g ∈ fields E →
  ∃ v, validate_field later g (r !! fname g) = inr v ∧
       ∀ w, r !! fname g = Some w → v = w.
Proof.
  intros HC Hp Hr Hg.
  destruct (projects_spec C E Hp) as [_ H2]. specialize (H2 g Hg).
  destruct (field_of C (fname g)) as [f|] eqn:Hfo.
  - destruct H2 as [Hann Hsame].
    apply field_of_Some in Hfo as [Hf Hname].
    destruct (validate_Ok_lookup now C kw r f (catalog_NoDup C HC) Hr Hf)
      as (v & _ & Hrv).
    pose proof (revalidate now C kw r f v HC Hr Hf Hrv) as Hv.
    exists v. rewrite <- Hname, Hrv. simpl. split; [|congruence].
    by rewrite <- Hann, <- (validate_value_ext (ann f) f g v Hsame).
  - assert (r !! fname g = None) as ->.
    { apply (validate_Ok_undeclared now C kw r); [done|].
      intros Hin. apply list_elem_of_fmap in Hin as (f & Hname & Hf).
      by apply (field_of_None C (fname g) f Hfo Hf). }
    simpl. destruct (default g) as [|v|]; [done|..]; eexists; split; done.
Qed.

(** X12: EIADataPointCreate, ScenarioCreate and DashboardConfigCreate are
    projections of EIADataPoint, Scenario and DashboardConfig: an instance
    of the request shape, given as keyword arguments to the persistent
    class (at any later time), is always accepted, and the persistent
    instance has every attribute of the request with the same value. *)
Theorem create_shape_builds_entity
    (now later : clock) (C E : model) (kw r : gmap string value) :
  (C, E) ∈ create_shapes →
  validate now C kw = Ok r →
  ∃ r', validate later E r = Ok r' ∧
        ∀ n v, r !! n = Some v → r' !! n = Some v.
Proof.
  intros HCE Hr.
  assert (C ∈ catalog ∧ E ∈ catalog ∧ projects C E = true) as (HC & HE & Hp).
  { unfold create_shapes in HCE.
    repeat (apply elem_of_cons in HCE as [HCE | HCE];
            [injection HCE as -> ->;
             split; [elem_tac | split; [elem_tac | vm_compute; reflexivity]]|]).
    by apply elem_of_nil in HCE. }
  assert (accepts later E r) as [r' Hr'].
  { apply accepts_iff. intros g Hg.
    destruct (projection_field now later C E kw r g HC Hp Hr Hg) as (v & Hv & _).
    eauto. }
  exists r'. split; [done|]. intros n v Hn.
  destruct (decide (n ∈ field_names C)) as [Hin | Hnin];
    [|by rewrite (validate_Ok_undeclared now C kw r n Hr Hnin) in Hn].
  apply list_elem_of_fmap in Hin as (f & -> & Hf).
  destruct (projects_spec C E Hp) as [H1 _].
  destruct (H1 f Hf) as [g Hg]. apply field_of_Some in Hg as [Hg Hname].
  destruct (projection_field now later C E kw r g HC Hp Hr Hg) as (w & Hw & Heq).
  destruct (validate_Ok_lookup later E r r' g (catalog_NoDup E HE) Hr' Hg)
    as (w' & Hw' & Hr'w).
  rewrite Hname in *. rewrite Hr'w. f_equal.
  rewrite Hw in Hw'. injection Hw' as <-. by apply Heq.
Qed.

Lemma create_shape_builds_entity_witness :
  ∃ r', validate utc_2026_01_01 Scenario
          (instance_of (validate utc_2025_06_01 ScenarioCreate
                          scenario_kwargs)) = Ok r' ∧
        ∀ n v,
          instance_of (validate utc_2025_06_01 ScenarioCreate scenario_kwargs)
          !! n = Some v →
          r' !! n = Some v.
Proof.
  apply (create_shape_builds_entity utc_2025_06_01 _ ScenarioCreate Scenario
           scenario_kwargs); [elem_tac|].
  apply is_ok_instance; vm_compute; reflexivity.
Defined.

(** X13: every attribute of ScenarioUpdate is the Optional form of the
    Scenario attribute of the same name, with the same constraints: each
    attribute of a validated update that is not None can be passed to an
    accepted Scenario input, which stays accepted and stores that value. *)
Theorem scenario_update_value_fits_scenario
    (now later : clock) (u ru kw : gmap string value) (n : string)
    (v : value) :
  validate now ScenarioUpdate u = Ok ru →
  ru !! n = Some v → v ≠ VNone →
  accepts later Scenario kw →
  ∃ r, validate later Scenario (<[n := v]> kw) = Ok r ∧ r !! n = Some v.
Proof.
  intros Hru Hn Hv Hacc.
  assert (ScenarioUpdate ∈ catalog) as HU by elem_tac.
  assert (Scenario ∈ catalog) as HE by elem_tac.
  destruct (decide (n ∈ field_names ScenarioUpdate)) as [Hin | Hnin];
    [|by rewrite (validate_Ok_undeclared now _ u ru n Hru Hnin) in Hn].
  apply list_elem_of_fmap in Hin as (f & -> & Hf).
  pose proof (revalidate now _ u ru f v HU Hru Hf Hn) as Hval.
  assert (patches ScenarioUpdate Scenario = true) as Hp
    by (vm_compute; reflexivity).
  unfold patches in Hp. rewrite forallb_forall in Hp.
  specialize (Hp f (proj1 (list_elem_of_In _ _) Hf)).
  destruct (field_of Scenario (fname f)) as [g|] eqn:Hg; [|discriminate].
  apply andb_true_iff in Hp as [Hann Hsame].
  apply bool_decide_eq_true_1 in Hann.
  apply (set_attribute_Ok later Scenario (fname f) g);
    [by apply catalog_NoDup | done | done |].
  simpl. rewrite <- (validate_value_ext (ann g) f g v Hsame).
  rewrite Hann in Hval. simpl in Hval. by destruct v.
Qed.

Lemma scenario_update_value_fits_scenario_witness :
  ∃ r, validate utc_2025_06_01 Scenario
         (<["severity_level" := VEnum ESeverityLevel "EXTREME"]>
            scenario_kwargs) = Ok r ∧
       r !! "severity_level" = Some (VEnum ESeverityLevel "EXTREME").
Proof.
  pose (u := kwargs [("severity_level", VStr "EXTREME")]).
  apply (scenario_update_value_fits_scenario utc_2025_06_01 utc_2025_06_01 u
           (instance_of (validate utc_2025_06_01 ScenarioUpdate u))
           scenario_kwargs "severity_level").
  - apply is_ok_instance; vm_compute; reflexivity.
  - vm_compute; reflexivity.
  - discriminate.
  - by_validation.
Defined.

(** ** Keys and relationships *)

(** X16: every foreign key of the catalog names an existing table and its
    primary-key column id: the attribute that carries it is an integer (or
    an optional one) of a table class, and the target column is the
    integer primary key of the class mapped to that table. *)
Theorem foreign_keys_reference_primary_keys
    (m : model) (f : field) (ref : string) :
  m ∈ catalog → f ∈ fields m → foreign_key f = Some ref →
  ∃ m' c, foreign_key_target f = Some (m', c) ∧
          m' ∈ catalog ∧ tablename m' = fst <$> split_dot ref ∧
          c ∈ fields m' ∧ fname c = "id" ∧ primary_key c = true ∧
          is_int (ann c) = true ∧ is_int (ann f) = true ∧
          is_table m = true.
Proof.
  intros Hm Hf Href. unfold catalog in Hm.
  elem_cases Hm; simpl in Hf; elem_cases Hf; try discriminate Href;
    injection Href as <-;
    eexists _, _; (split; [vm_compute; reflexivity|]);
    repeat split; elem_tac.
Qed.

Lemma foreign_keys_reference_primary_keys_witness :
  ∃ m' c,
    foreign_key_target
      (attr "scenario_id" Int & set_foreign_key "scenarios.id")%field
    = Some (m', c) ∧
    mname m' = "Scenario" ∧ fname c = "id" ∧ primary_key c = true.
Proof.
  pose (f := (attr "scenario_id" Int & set_foreign_key "scenarios.id")%field).
  assert (ScenarioImpact ∈ catalog) as Hm by elem_tac.
  assert (f ∈ fields ScenarioImpact) as Hf by elem_tac.
  destruct (foreign_keys_reference_primary_keys ScenarioImpact f
              "scenarios.id" Hm Hf eq_refl)
    as (m' & c & Ht & _ & _ & _ & Hid & Hpk & _).
  exists m', c. repeat split; try done.
  vm_compute in Ht. by injection Ht as <- <-.
Defined.

(** X17: the six Relationship attributes pair up.  Each one is listed by
    its class, and its back_populates names a relationship of the target
    class that points back to it; of the two sides exactly one is a list,
    and the other side's class holds a foreign key to the list side's
    table, Optional exactly when that side's relationship is Optional. *)
Theorem relationships_pair_up (rel : relationship) :
  rel ∈ relationship_decls →
  (rel_attr rel, mname (rel_target rel)) ∈ relationships (rel_class rel) ∧
  ∃ back,
    back ∈ relationship_decls ∧
    rel_class back = rel_target rel ∧ rel_attr back = back_populates rel ∧
    rel_target back = rel_class rel ∧ back_populates back = rel_attr rel ∧
    (rel_annotation_kind rel = ListOf ↔ rel_annotation_kind back ≠ ListOf) ∧
    (rel_annotation_kind rel ≠ ListOf →
     ∃ f c, f ∈ fields (rel_class rel) ∧
            foreign_key_target f = Some (rel_target rel, c) ∧
            (rel_annotation_kind rel = OptionalOf ↔
             is_optional (ann f) = true)).
Proof.
  intros Hrel. unfold relationship_decls in Hrel.
  elem_cases Hrel; (split; [elem_tac|]).
  - exists (mkrel SupplyDisposition "data_point" OptionalOf EIADataPoint
              "supply_disposition_entries").
    repeat split; try (elem_tac; fail); try done.
  - exists (mkrel EIADataPoint "supply_disposition_entries" ListOf
              SupplyDisposition "data_point").
    repeat split; try (elem_tac; fail); try done.
    intros _.
    exists (attr "data_point_id" (Optional Int) & set_default VNone
            & set_foreign_key "eia_data_points.id")%field.
    eexists. repeat split; try (elem_tac; fail);
      try (vm_compute; reflexivity).
  - exists (mkrel ScenarioImpact "scenario" Plain Scenario
              "scenario_impacts").
    repeat split; try (elem_tac; fail); try done.
  - exists (mkrel PriceForecast "scenario" OptionalOf Scenario
              "price_forecasts").
    repeat split; try (elem_tac; fail); try done.
  - exists (mkrel Scenario "scenario_impacts" ListOf ScenarioImpact
              "scenario").
    repeat split; try (elem_tac; fail); try done.
    intros _.
    exists (attr "scenario_id" Int & set_foreign_key "scenarios.id")%field.
    eexists. repeat split; try (elem_tac; fail);
      try (vm_compute; reflexivity); discriminate.
  - exists (mkrel Scenario "price_forecasts" ListOf PriceForecast
              "scenario").
    repeat split; try (elem_tac; fail); try done.
    intros _.
    exists (attr "scenario_id" (Optional Int) & set_default VNone
            & set_foreign_key "scenarios.id")%field.
    eexists. repeat split; try (elem_tac; fail);
      try (vm_compute; reflexivity).
Qed.

Lemma relationships_pair_up_witness :
  ∃ back,
    back ∈ relationship_decls ∧
    mname (rel_class back) = "Scenario" ∧
    rel_attr back = "price_forecasts" ∧
    rel_annotation_kind back = ListOf.
Proof.
  pose (rel := mkrel PriceForecast "scenario" OptionalOf Scenario
                 "price_forecasts").
  assert (rel ∈ relationship_decls) as Hrel by elem_tac.
  destruct (relationships_pair_up rel Hrel)
    as (_ & back & Hin & Hclass & Hattr & _ & _ & Hkind & _).
  exists back. repeat split; try done.
  - by rewrite Hclass.
  - destruct (rel_annotation_kind back); try done;
      (assert (rel_annotation_kind rel = ListOf) as Habs
         by (apply Hkind; discriminate));
      discriminate Habs.
Defined.

Lemma catalog_forallb_models (P : model → bool) :
  forallb P catalog = true → ∀ m, m ∈ catalog → P m = true.
Proof.
  intros H m Hm. rewrite forallb_forall in H.
  apply H. by apply list_elem_of_In.
Qed.

(** X18: the classes declared with table=True are mapped to pairwise
    distinct tables and each has the primary key id, an Optional int that
    is None in an instance built without it, and a created_at timestamp;
    id is the only primary key and DashboardConfig.config_name the only
    unique attribute; the classes declared with table=False carry no key,
    index, column or relationship declaration at all. *)
Theorem table_classes_have_identity
    (now : clock) (m : model) (kw r : gmap string value) :
  m ∈ catalog →
  NoDup (omap tablename catalog) ∧
  (∀ f, f ∈ fields m → primary_key f = true →
        fname f = "id" ∧ ann f = Optional Int ∧ default f = Default VNone) ∧
  (∀ f, f ∈ fields m → unique f = true →
        mname m = "DashboardConfig" ∧ fname f = "config_name") ∧
  (is_table m = true →
   (∃ idf, field_of m "id" = Some idf ∧ primary_key idf = true) ∧
   (∃ g, field_of m "created_at" = Some g ∧
         default g = DefaultFactoryUtcnow) ∧
   (kw !! "id" = None → validate now m kw = Ok r →
    r !! "id" = Some VNone)) ∧
  (is_table m = false →
   relationships m = [] ∧
   ∀ f, f ∈ fields m →
        primary_key f = false ∧ foreign_key f = None ∧ index f = false ∧
        unique f = false ∧ sa_column_json f = false).
Proof.
  intros Hm. pose proof (catalog_NoDup m Hm) as Hnd.
  split; [apply (bool_decide_unpack _); vm_compute; exact I|].
  split; [|split; [|split]].
  - intros f Hf Hpk.
    pose proof (catalog_forallb
      (λ _ f, implb (primary_key f)
                (bool_decide (fname f = "id" ∧ ann f = Optional Int)
                 && is_default_none f)) eq_refl m f Hm Hf) as H.
    simpl in H. rewrite Hpk in H. apply andb_true_iff in H as [H1 H2].
    apply bool_decide_eq_true_1 in H1 as [? ?].
    by apply is_default_none_spec in H2.
  - intros f Hf Hu.
    pose proof (catalog_forallb
      (λ m f, implb (unique f)
                (bool_decide (mname m = "DashboardConfig"
                              ∧ fname f = "config_name")))
      eq_refl m f Hm Hf) as H.
    simpl in H. rewrite Hu in H. by apply bool_decide_eq_true_1 in H.
  - intros Htab.
    pose proof (catalog_forallb_models
      (λ m, implb (is_table m)
              (match field_of m "id" with
               | Some idf => primary_key idf && is_default_none idf
               | None => false
               end
               && match field_of m "created_at" with
                  | Some g => match default g with
                              | DefaultFactoryUtcnow => true
                              | _ => false
                              end
                  | None => false
                  end)) eq_refl m Hm) as H.
    simpl in H. rewrite Htab in H. apply andb_true_iff in H as [H1 H2].
    destruct (field_of m "id") as [idf|] eqn:Hid; [|discriminate].
    destruct (field_of m "created_at") as [g|] eqn:Hc; [|discriminate].
    apply andb_true_iff in H1 as [Hpk Hdef].
    apply is_default_none_spec in Hdef.
    split; [eauto|]. split.
    + exists g. split; [done|]. by destruct (default g).
    + intros Hkw Hr. apply field_of_Some in Hid as [Hf Hname].
      rewrite <- Hname in *. by eapply validate_Ok_omitted.
  - intros Htab.
    pose proof (catalog_forallb_models
      (λ m, is_table m
            || bool_decide (relationships m = [])) eq_refl m Hm) as Hrel.
    simpl in Hrel. rewrite Htab in Hrel. apply bool_decide_eq_true_1 in Hrel.
    split; [done|]. intros f Hf.
    pose proof (catalog_forallb
      (λ m f, is_table m
              || (negb (primary_key f) && bool_decide (foreign_key f = None)
                  && negb (index f) && negb (unique f)
                  && negb (sa_column_json f))) eq_refl m f Hm Hf) as H.
    simpl in H. rewrite Htab in H. simpl in H.
    apply andb_true_iff in H as [H Hsa]. apply andb_true_iff in H as [H Hu].
    apply andb_true_iff in H as [H Hix]. apply andb_true_iff in H as [Hpk Hfk].
    apply bool_decide_eq_true_1 in Hfk.
    repeat split; try done; by apply negb_true_iff.
Qed.

Lemma table_classes_have_identity_witness :
  ∃ r, validate utc_2025_06_01 PriceForecast price_forecast_kwargs = Ok r ∧
       r !! "id" = Some VNone.
Proof.
  by_validation.
  apply (table_classes_have_identity utc_2025_06_01 PriceForecast
           price_forecast_kwargs); [elem_tac | reflexivity | reflexivity |].
  apply is_ok_instance; vm_compute; reflexivity.
Defined.

(** ** Enumeration members *)

Lemma validate_enum_member now f e e' s :
  enum_of (ann f) = Some e →
  validate_field now f (Some (VEnum e' s))
  = if bool_decide (e' = e) then check_enum e s else inl (EnumError e).
Proof.
  unfold validate_field. destruct (ann f) as [| | | | | |e0| | |a];
    try discriminate; simpl.
  - by intros [= ->].
  - destruct a; try discriminate. by intros [= ->].
Qed.

(** X19: the enumerations are str-based, so under validation
    (model_validate) a member and the string it is equal to are
    interchangeable for an enumeration attribute: passing the one or the
    other gives the same outcome.  The values of the five enumerations are
    pairwise disjoint, and a member of another enumeration makes the
    validation fail. *)
Theorem enum_member_and_value_interchangeable
    (now : clock) (m : model) (f : field) (e e' : enum) (s : string)
    (kw : gmap string value) :
  m ∈ catalog → f ∈ fields m → enum_of (ann f) = Some e →
  validate now m (<[fname f := VEnum e s]> kw)
  = validate now m (<[fname f := VStr s]> kw) ∧
  (e' ≠ e →
   (s ∈ enum_values e' → s ∉ enum_values e) ∧
   rejects_with now m (<[fname f := VEnum e' s]> kw) (fname f)
     (EnumError e)).
Proof.
  intros Hm Hf He. pose proof (catalog_NoDup m Hm) as Hnd. split.
  - apply validate_ext. intros g Hg.
    destruct (decide (fname f = fname g)) as [Heq | Hne].
    + assert (f = g) as <- by eauto using field_name_inj.
      rewrite !lookup_insert_eq.
      rewrite (validate_enum_member now f e e s He),
        (validate_enum_str now f e s He).
      by rewrite bool_decide_eq_true_2.
    + by rewrite !lookup_insert_ne.
  - intros Hne. split.
    + intros H1 H2. destruct e, e'; try done;
        simpl in H1, H2; elem_cases H1; elem_cases H2; discriminate.
    + apply insert_rejects; [done|].
      rewrite (validate_enum_member now f e e' s He).
      by rewrite bool_decide_eq_false_2.
Qed.

Lemma enum_member_and_value_interchangeable_witness :
  validate utc_2025_06_01 EIADataPoint
    (<["product_type" := VEnum EProductType "JET_FUEL"]>
       eia_data_point_kwargs)
  = validate utc_2025_06_01 EIADataPoint
      (<["product_type" := VStr "JET_FUEL"]> eia_data_point_kwargs) ∧
  rejects_with utc_2025_06_01 EIADataPoint
    (<["product_type" := VEnum EDispositionType "PRODUCTION"]>
       eia_data_point_kwargs)
    "product_type" (EnumError EProductType).
Proof.
  pose (f := attr "product_type" (Enum EProductType)).
  assert (EIADataPoint ∈ catalog) as Hm by elem_tac.
  assert (f ∈ fields EIADataPoint) as Hf by elem_tac.
  split.
  - apply (enum_member_and_value_interchangeable utc_2025_06_01
             EIADataPoint f EProductType EProductType "JET_FUEL"
             eia_data_point_kwargs Hm Hf eq_refl).
  - apply (enum_member_and_value_interchangeable utc_2025_06_01
             EIADataPoint f EProductType EDispositionType "PRODUCTION"
             eia_data_point_kwargs Hm Hf eq_refl).
    discriminate.
Defined.

(** * The constructor and validation *)

(** ** What the constructor does *)

Lemma construct_not_table now m kw :
  is_table m = false → construct now m kw = validate now m kw.
Proof.
  unfold is_table, construct. by destruct (tablename m).
Qed.

Lemma table_construct_fields_names now fs kw :
  sublist (table_construct_fields now fs kw).*1 (map fname fs).
Proof.
  induction fs as [|g fs IH]; simpl; [constructor|].
  destruct (table_attribute now g (kw !! fname g)); simpl.
  - by apply sublist_skip.
  - by apply sublist_cons.
Qed.

Lemma table_construct_fields_elem now fs kw n v :
  (n, v) ∈ table_construct_fields now fs kw ↔
  ∃ f, f ∈ fs ∧ fname f = n ∧ table_attribute now f (kw !! n) = Some v.
Proof.
  induction fs as [|g fs IH]; simpl.
  - split; [intros H; inversion H | intros (f & H & _); inversion H].
  - destruct (table_attribute now g (kw !! fname g)) as [w|] eqn:Hg.
    + rewrite elem_of_cons, IH. split.
      * intros [Heq | (f & Hf & Hn & Hv)].
        -- inversion Heq; subst. exists g. rewrite elem_of_cons. auto.
        -- exists f. rewrite elem_of_cons. auto.
      * intros (f & Hf & Hn & Hv). apply elem_of_cons in Hf as [-> | Hf].
        -- left. subst n. congruence.
        -- right. eauto.
    + rewrite IH. split.
      * intros (f & Hf & Hn & Hv). exists f. rewrite elem_of_cons. auto.
      * intros (f & Hf & Hn & Hv). apply elem_of_cons in Hf as [-> | Hf].
        -- subst n. congruence.
        -- eauto.
Qed.

(** The constructor of a table class never fails, and an attribute of the
    instance is what [table_attribute] makes of the keyword. *)
Lemma construct_table now m kw :
  is_table m = true → NoDup (field_names m) →
  ∃ r, construct now m kw = Ok r ∧
       ∀ f v, f ∈ fields m →
              table_attribute now f (kw !! fname f) = Some v →
              r !! fname f = Some v.
Proof.
  intros Htab Hnd. unfold is_table in Htab. unfold construct.
  destruct (tablename m); [|discriminate].
  eexists. split; [reflexivity|]. intros f v Hf Hv.
  apply elem_of_list_to_map.
  - eapply sublist_NoDup; [exact Hnd | apply table_construct_fields_names].
  - apply table_construct_fields_elem. eauto.
Qed.

(** Whatever is passed for a declared attribute of a table class is in the
    instance as passed. *)
Lemma construct_table_stores now m f kw v :
  is_table m = true → NoDup (field_names m) → f ∈ fields m →
  ∃ r, construct now m (<[fname f := v]> kw) = Ok r ∧
       r !! fname f = Some v.
Proof.
  intros Htab Hnd Hf.
  destruct (construct_table now m (<[fname f := v]> kw) Htab Hnd)
    as (r & Hr & Hlook).
  exists r. split; [done|]. apply Hlook; [done|].
  by rewrite lookup_insert_eq.
Qed.

(** A concrete call of a constructor, settled by evaluation. *)
Ltac by_construction :=
  match goal with
  | |- ∃ r, construct ?now ?m ?kw = Ok r ∧ _ =>
      exists (instance_of (construct now m kw));
      split; [apply is_ok_instance; vm_compute; reflexivity|]
  end.

(** ** Enumerations *)

(** The constructor of EIADataPoint, a table class, takes the string "psm",
    which the glossary does not list for the data source, and stores it as
    passed. *)
Lemma C4_constructor_stores_unlisted_string :
  ("psm" ∉ glossary EDataSourceType) ∧
  ∃ r, construct utc_2025_06_01 EIADataPoint
         (<["data_source" := VStr "psm"]> eia_data_point_kwargs) = Ok r ∧
       r !! "data_source" = Some (VStr "psm").
Proof.
  split.
  - apply (bool_decide_unpack _). vm_compute. exact I.
  - by_construction. vm_compute. reflexivity.
Qed.

(** C4 (amended): an attribute annotated with an enumeration is one of
    data_source, product_type, disposition_type, scenario_type and
    severity_level.  Validation (model_validate) accepts a string for it
    exactly when the glossary lists the string for that enumeration: any
    other string makes the validation fail with an enumeration error, a
    listed one passed to an accepted input is accepted and stored as the
    member.  The constructor of a class declared with table=False is this
    validation; the constructor of a class declared with table=True checks
    nothing and stores any string as passed. *)
Theorem C4_enum_fields_accept_glossary_values
    (now : clock) (m : model) (f : field) (e : enum) (s : string)
    (kw : gmap string value) :
  m ∈ catalog → f ∈ fields m → enum_of (ann f) = Some e →
  (fname f, e) ∈ enum_fields ∧
  (s ∉ glossary e →
   rejects_with now m (<[fname f := VStr s]> kw) (fname f) (EnumError e)) ∧
  (accepts now m kw →
   (accepts now m (<[fname f := VStr s]> kw) ↔ s ∈ glossary e) ∧
   (s ∈ glossary e →
    ∃ r, validate now m (<[fname f := VStr s]> kw) = Ok r ∧
         r !! fname f = Some (VEnum e s))) ∧
  (is_table m = false →
   construct now m (<[fname f := VStr s]> kw)
   = validate now m (<[fname f := VStr s]> kw)) ∧
  (is_table m = true →
   ∃ r, construct now m (<[fname f := VStr s]> kw) = Ok r ∧
        r !! fname f = Some (VStr s)).
Proof.
  intros Hm Hf He.
  destruct (enum_fields_validated now m f e s kw Hm Hf He) as (A & B & C).
  repeat split; try done.
  - by apply C.
  - by apply C.
  - by apply C.
  - apply construct_not_table.
  - intros Htab. apply construct_table_stores; auto using catalog_NoDup.
Qed.

Lemma C4_enum_fields_accept_glossary_values_witness :
  rejects_with utc_2025_06_01 EIADataPointCreate
    (<["data_source" := VStr "psm"]> eia_data_point_kwargs)
    "data_source" (EnumError EDataSourceType) ∧
  (∃ r, validate utc_2025_06_01 EIADataPoint
          (<["data_source" := VStr "PSM"]> eia_data_point_kwargs) = Ok r ∧
        r !! "data_source" = Some (VEnum EDataSourceType "PSM")) ∧
  construct utc_2025_06_01 EIADataPointCreate
    (<["data_source" := VStr "psm"]> eia_data_point_kwargs)
  = validate utc_2025_06_01 EIADataPointCreate
      (<["data_source" := VStr "psm"]> eia_data_point_kwargs).
Proof.
  pose (f := attr "data_source" (Enum EDataSourceType)).
  assert (EIADataPoint ∈ catalog) as Hm by elem_tac.
  assert (f ∈ fields EIADataPoint) as Hf by elem_tac.
  assert (EIADataPointCreate ∈ catalog) as Hm' by elem_tac.
  assert (f ∈ fields EIADataPointCreate) as Hf' by elem_tac.
  split; [|split].
  - apply (C4_enum_fields_accept_glossary_values utc_2025_06_01
             EIADataPointCreate f EDataSourceType "psm"
             eia_data_point_kwargs Hm' Hf' eq_refl).
    apply (bool_decide_unpack _). vm_compute. exact I.
  - apply (C4_enum_fields_accept_glossary_values utc_2025_06_01
             EIADataPoint f EDataSourceType "PSM" eia_data_point_kwargs
             Hm Hf eq_refl).
    + by_validation.
    + elem_tac.
  - apply (C4_enum_fields_accept_glossary_values utc_2025_06_01
             EIADataPointCreate f EDataSourceType "psm"
             eia_data_point_kwargs Hm' Hf' eq_refl).
    reflexivity.
Defined.

(** ** Decimals *)




(** ** Integer bounds *)

(** The constructor of Scenario, a table class, takes the hurricane
    category 6 and stores it. *)
Lemma C6_constructor_stores_category_6 :
  ¬ (1 ≤ 6 ≤ 5)%Z ∧
  ∃ r, construct utc_2025_06_01 Scenario
         (<["hurricane_category" := VInt 6]> scenario_kwargs) = Ok r ∧
       r !! "hurricane_category" = Some (VInt 6).
Proof.
  split; [lia|]. by_construction. vm_compute. reflexivity.
Qed.

(** C6 (amended): validation (model_validate) takes for hurricane_category
    of Scenario and of ScenarioCreate and for category of
    HurricaneHistorical the integers 1 to 5 and no other: a smaller or a
    larger one makes the validation fail, one in the range passed to an
    accepted input is accepted and stored; hurricane_category may moreover
    be left out or be None, and is None then.  The constructor of
    ScenarioCreate, declared with table=False, is this validation; the
    constructors of Scenario and HurricaneHistorical, declared with
    table=True, check nothing and store any integer as passed. *)
Theorem C6_hurricane_category_range
    (now : clock) (m : model) (n : string) (kw : gmap string value)
    (z : Z) :
  (m, n) ∈ category_fields →
  ((z < 1)%Z →
   rejects_with now m (<[n := VInt z]> kw) n (GreaterThanEqual 1)) ∧
  ((5 < z)%Z →
   rejects_with now m (<[n := VInt z]> kw) n (LessThanEqual 5)) ∧
  (accepts now m kw → (1 ≤ z ≤ 5)%Z →
   ∃ r, validate now m (<[n := VInt z]> kw) = Ok r ∧
        r !! n = Some (VInt z)) ∧
  (n = "hurricane_category" → accepts now m kw →
   (∃ r, validate now m (delete n kw) = Ok r ∧ r !! n = Some VNone) ∧
   (∃ r, validate now m (<[n := VNone]> kw) = Ok r ∧ r !! n = Some VNone)) ∧
  (mname m = "ScenarioCreate" →
   construct now m (<[n := VInt z]> kw)
   = validate now m (<[n := VInt z]> kw)) ∧
  (mname m ≠ "ScenarioCreate" →
   ∃ r, construct now m (<[n := VInt z]> kw) = Ok r ∧
        r !! n = Some (VInt z)).
Proof.
  intros Hmn.
  destruct (hurricane_category_validated now m n kw z Hmn) as (A & B & C & D).
  do 4 (split; [done|]).
  unfold category_fields in Hmn.
  repeat (apply elem_of_cons in Hmn as [Hmn | Hmn];
          [injection Hmn as -> ->|]);
    [ get_field Scenario "hurricane_category" f Hf
    | get_field ScenarioCreate "hurricane_category" f Hf
    | get_field HurricaneHistorical "category" f Hf
    | by apply elem_of_nil in Hmn ];
    apply field_of_Some in Hf as [Hf Hname];
    (split; [intros Hc; try discriminate Hc; by apply construct_not_table
            |intros Hc; try (by destruct Hc)]).
  - apply (construct_table_stores now Scenario f); auto.
    apply catalog_NoDup; elem_tac.
  - apply (construct_table_stores now HurricaneHistorical f); auto.
    apply catalog_NoDup; elem_tac.
Qed.

Lemma C6_hurricane_category_range_witness :
  rejects_with utc_2025_06_01 HurricaneHistorical
    (<["category" := VInt 6]> hurricane_historical_kwargs)
    "category" (LessThanEqual 5) ∧
  (∃ r, validate utc_2025_06_01 Scenario
          (<["hurricane_category" := VInt 5]> scenario_kwargs) = Ok r ∧
        r !! "hurricane_category" = Some (VInt 5)) ∧
  (∃ r, validate utc_2025_06_01 ScenarioCreate
          (delete "hurricane_category" scenario_kwargs) = Ok r ∧
        r !! "hurricane_category" = Some VNone) ∧
  construct utc_2025_06_01 ScenarioCreate
    (<["hurricane_category" := VInt 6]> scenario_kwargs)
  = validate utc_2025_06_01 ScenarioCreate
      (<["hurricane_category" := VInt 6]> scenario_kwargs).
Proof.
  split; [|split; [|split]].
  - assert ((HurricaneHistorical, "category") ∈ category_fields) as Hmn
      by elem_tac.
    destruct (C6_hurricane_category_range utc_2025_06_01 HurricaneHistorical
                "category" hurricane_historical_kwargs 6 Hmn)
      as (_ & Hhigh & _).
    apply Hhigh. lia.
  - assert ((Scenario, "hurricane_category") ∈ category_fields) as Hmn
      by elem_tac.
    destruct (C6_hurricane_category_range utc_2025_06_01 Scenario
                "hurricane_category" scenario_kwargs 5 Hmn)
      as (_ & _ & Hin & _).
    apply Hin; [by_validation | lia].
  - assert ((ScenarioCreate, "hurricane_category") ∈ category_fields) as Hmn
      by elem_tac.
    destruct (C6_hurricane_category_range utc_2025_06_01 ScenarioCreate
                "hurricane_category" scenario_kwargs 0 Hmn)
      as (_ & _ & _ & Hnone & _).
    apply Hnone; [reflexivity | by_validation].
  - assert ((ScenarioCreate, "hurricane_category") ∈ category_fields) as Hmn
      by elem_tac.
    destruct (C6_hurricane_category_range utc_2025_06_01 ScenarioCreate
                "hurricane_category" scenario_kwargs 6 Hmn)
      as (_ & _ & _ & _ & Hcreate & _).
    apply Hcreate. reflexivity.
Defined.

(** The constructor of SeasonalPattern, a table class, takes the month 13
    and stores it. *)
Lemma C7_constructor_stores_month_13 :
  ¬ (1 ≤ 13 ≤ 12)%Z ∧
  ∃ r, construct utc_2025_06_01 SeasonalPattern
         (<["month" := VInt 13]> seasonal_pattern_kwargs) = Ok r ∧
       r !! "month" = Some (VInt 13).
Proof.
  split; [lia|]. by_construction. vm_compute. reflexivity.
Qed.

(** C7 (amended): validation (model_validate) takes for SeasonalPattern.month
    the integers 1 to 12 and no other: a smaller or a larger one makes the
    validation fail (whatever the other arguments), and one in the range,
    passed to an input that was accepted, is accepted and stored.  The
    constructor of SeasonalPattern, a class declared with table=True,
    checks nothing and stores any integer as passed. *)
Theorem C7_seasonal_month_range
    (now : clock) (kw : gmap string value) (z : Z) :
  ((z < 1)%Z →
   rejects_with now SeasonalPattern (<["month" := VInt z]> kw)
     "month" (GreaterThanEqual 1)) ∧
  ((12 < z)%Z →
   rejects_with now SeasonalPattern (<["month" := VInt z]> kw)
     "month" (LessThanEqual 12)) ∧
  (accepts now SeasonalPattern kw → (1 ≤ z ≤ 12)%Z →
   ∃ r, validate now SeasonalPattern (<["month" := VInt z]> kw) = Ok r ∧
        r !! "month" = Some (VInt z)) ∧
  (∃ r, construct now SeasonalPattern (<["month" := VInt z]> kw) = Ok r ∧
        r !! "month" = Some (VInt z)).
Proof.
  destruct (seasonal_month_validated now kw z) as (A & B & C).
  do 3 (split; [done|]).
  get_field SeasonalPattern "month" f Hf.
  apply field_of_Some in Hf as [Hf Hname].
  apply (construct_table_stores now SeasonalPattern f); auto.
  apply catalog_NoDup; elem_tac.
Qed.

Lemma C7_seasonal_month_range_witness :
  rejects_with utc_2025_06_01 SeasonalPattern
    (<["month" := VInt 0]> seasonal_pattern_kwargs)
    "month" (GreaterThanEqual 1) ∧
  rejects_with utc_2025_06_01 SeasonalPattern
    (<["month" := VInt 13]> seasonal_pattern_kwargs)
    "month" (LessThanEqual 12) ∧
  ∃ r, validate utc_2025_06_01 SeasonalPattern
         (<["month" := VInt 12]> seasonal_pattern_kwargs) = Ok r ∧
       r !! "month" = Some (VInt 12).
Proof.
  split; [|split].
  - destruct (C7_seasonal_month_range utc_2025_06_01
                seasonal_pattern_kwargs 0) as (Hlow & _).
    apply Hlow. lia.
  - destruct (C7_seasonal_month_range utc_2025_06_01
                seasonal_pattern_kwargs 13) as (_ & Hhigh & _).
    apply Hhigh. lia.
  - destruct (C7_seasonal_month_range utc_2025_06_01
                seasonal_pattern_kwargs 12) as (_ & _ & Hin & _).
    apply Hin; [by_validation | lia].
Defined.

(** The constructor of HurricaneHistorical, a table class, takes -1
    recovery days and stores them. *)
Lemma C10_constructor_stores_negative_days :
  ¬ (0 ≤ -1)%Z ∧
  ∃ r, construct utc_2025_06_01 HurricaneHistorical
         (<["recovery_days_refining" := VInt (-1)]>
            hurricane_historical_kwargs) = Ok r ∧
       r !! "recovery_days_refining" = Some (VInt (-1)).
Proof.
  split; [lia|]. by_construction. vm_compute. reflexivity.
Qed.

(** C10 (amended): validation (model_validate) takes for
    production_disruption_days, recovery_days_production and
    recovery_days_refining of HurricaneHistorical the integers from 0 up: a
    negative one makes the validation fail, a non-negative one passed to an
    accepted input is accepted and stored, and one left out is 0.  The
    constructor of HurricaneHistorical, a class declared with table=True,
    checks nothing: it stores any integer as passed, and 0 for one left
    out. *)
Theorem C10_day_counts_non_negative
    (now : clock) (n : string) (kw : gmap string value) (z : Z) :
  n ∈ day_counts →
  ((z < 0)%Z →
   rejects_with now HurricaneHistorical (<[n := VInt z]> kw)
     n (GreaterThanEqual 0)) ∧
  (accepts now HurricaneHistorical kw → (0 ≤ z)%Z →
   ∃ r, validate now HurricaneHistorical (<[n := VInt z]> kw) = Ok r ∧
        r !! n = Some (VInt z)) ∧
  (accepts now HurricaneHistorical kw →
   ∃ r, validate now HurricaneHistorical (delete n kw) = Ok r ∧
        r !! n = Some (VInt 0)) ∧
  (∃ r, construct now HurricaneHistorical (<[n := VInt z]> kw) = Ok r ∧
        r !! n = Some (VInt z)) ∧
  (∃ r, construct now HurricaneHistorical (delete n kw) = Ok r ∧
        r !! n = Some (VInt 0)).
Proof.
  intros Hn.
  destruct (day_counts_validated now n kw z Hn) as (A & B & C).
  do 3 (split; [done|]).
  assert (NoDup (field_names HurricaneHistorical)) as Hnd
    by (apply catalog_NoDup; elem_tac).
  unfold day_counts in Hn.
  repeat (apply elem_of_cons in Hn as [-> | Hn]);
    [ get_field HurricaneHistorical "production_disruption_days" f Hf
    | get_field HurricaneHistorical "recovery_days_production" f Hf
    | get_field HurricaneHistorical "recovery_days_refining" f Hf
    | by apply elem_of_nil in Hn ];
    apply field_of_Some in Hf as [Hf Hname];
    (split; [by apply (construct_table_stores now HurricaneHistorical f)|]);
    (destruct (construct_table now HurricaneHistorical (delete (fname f) kw)
                 eq_refl Hnd) as (r & Hr & Hlook));
    exists r; (split; [exact Hr|]);
    apply (Hlook f (VInt 0) Hf);
    by rewrite lookup_delete_eq.
Qed.

Lemma C10_day_counts_non_negative_witness :
  rejects_with utc_2025_06_01 HurricaneHistorical
    (<["recovery_days_refining" := VInt (-1)]> hurricane_historical_kwargs)
    "recovery_days_refining" (GreaterThanEqual 0) ∧
  (∃ r, validate utc_2025_06_01 HurricaneHistorical
          (<["recovery_days_production" := VInt 45]>
             hurricane_historical_kwargs) = Ok r ∧
        r !! "recovery_days_production" = Some (VInt 45)) ∧
  (∃ r, validate utc_2025_06_01 HurricaneHistorical
          (delete "production_disruption_days" hurricane_historical_kwargs)
        = Ok r ∧
        r !! "production_disruption_days" = Some (VInt 0)).
Proof.
  split; [|split].
  - assert ("recovery_days_refining" ∈ day_counts) as Hn by elem_tac.
    destruct (C10_day_counts_non_negative utc_2025_06_01
                "recovery_days_refining" hurricane_historical_kwargs (-1)
                Hn) as (Hneg & _).
    apply Hneg. lia.
  - assert ("recovery_days_production" ∈ day_counts) as Hn by elem_tac.
    destruct (C10_day_counts_non_negative utc_2025_06_01
                "recovery_days_production" hurricane_historical_kwargs 45
                Hn) as (_ & Hpassed & _).
    apply Hpassed; [by_validation | lia].
  - assert ("production_disruption_days" ∈ day_counts) as Hn by elem_tac.
    destruct (C10_day_counts_non_negative utc_2025_06_01
                "production_disruption_days" hurricane_historical_kwargs 0
                Hn) as (_ & _ & Homitted & _).
    apply Homitted. by_validation.
Defined.

(** ** Timestamps *)

(** X14: the attributes filled by default_factory=datetime.utcnow are
    datetime attributes of table classes.  Under validation and under the
    constructor alike, one left out holds the time read by its own call of
    utcnow, and one passed by the caller is stored as passed: the
    timestamp is a default, not forced. *)
Theorem timestamp_is_a_default
    (now : clock) (m : model) (f : field) (kw : gmap string value)
    (t : datetime) :
  m ∈ catalog → f ∈ fields m → default f = DefaultFactoryUtcnow →
  ann f = TDatetime ∧ is_table m = true ∧
  (∀ r, kw !! fname f = None → validate now m kw = Ok r →
        r !! fname f = Some (VDatetime (now (fname f)))) ∧
  (∀ r, kw !! fname f = None → construct now m kw = Ok r →
        r !! fname f = Some (VDatetime (now (fname f)))) ∧
  (accepts now m kw →
   ∃ r, validate now m (<[fname f := VDatetime t]> kw) = Ok r ∧
        r !! fname f = Some (VDatetime t)) ∧
  (∃ r, construct now m (<[fname f := VDatetime t]> kw) = Ok r ∧
        r !! fname f = Some (VDatetime t)).
Proof.
  intros Hm Hf Hdef.
  pose proof (catalog_NoDup m Hm) as Hnd.
  pose proof (catalog_forallb
    (λ m f, match default f with
            | DefaultFactoryUtcnow =>
                bool_decide (ann f = TDatetime) && is_table m
            | _ => true
            end) eq_refl m f Hm Hf) as H.
  simpl in H. rewrite Hdef in H. apply andb_true_iff in H as [Hann Htab].
  apply bool_decide_eq_true_1 in Hann.
  split; [done|]. split; [done|]. split; [|split; [|split]].
  - intros r Hkw Hr.
    destruct (validate_Ok_lookup now m kw r f Hnd Hr Hf) as (v & Hv & ->).
    rewrite Hkw in Hv. simpl in Hv. rewrite Hdef in Hv. congruence.
  - intros r Hkw Hr.
    destruct (construct_table now m kw Htab Hnd) as (r' & Hr' & Hlook).
    assert (r' = r) as -> by congruence.
    apply Hlook; [done|]. rewrite Hkw. simpl. by rewrite Hdef.
  - intros Hacc. apply (set_attribute_Ok now m (fname f) f); auto.
    + by apply field_of_declared.
    + simpl. by rewrite Hann.
  - by apply construct_table_stores.
Qed.

Lemma timestamp_is_a_default_witness :
  (∃ r, validate utc_2025_06_01 DashboardConfig dashboard_config_kwargs
        = Ok r ∧
        r !! "updated_at"
        = Some (VDatetime (mkdatetime (mkdate 2025 6 1) 7))) ∧
  (∃ r, validate utc_2025_06_01 DashboardConfig
          (<["updated_at" := VDatetime (mkdatetime (mkdate 1999 12 31) 0)]>
             dashboard_config_kwargs) = Ok r ∧
        r !! "updated_at"
        = Some (VDatetime (mkdatetime (mkdate 1999 12 31) 0))).
Proof.
  pose (f := (attr "updated_at" TDatetime & set_default_factory_utcnow)%field).
  assert (DashboardConfig ∈ catalog) as Hm by elem_tac.
  assert (f ∈ fields DashboardConfig) as Hf by elem_tac.
  split.
  - by_validation.
    destruct (timestamp_is_a_default utc_2025_06_01 DashboardConfig f
                dashboard_config_kwargs (utc_2025_06_01 "updated_at")
                Hm Hf eq_refl) as (_ & _ & Homitted & _).
    apply Homitted; [reflexivity|].
    apply is_ok_instance; vm_compute; reflexivity.
  - destruct (timestamp_is_a_default utc_2025_06_01 DashboardConfig f
                dashboard_config_kwargs (mkdatetime (mkdate 1999 12 31) 0)
                Hm Hf eq_refl) as (_ & _ & _ & _ & Hpassed & _).
    apply Hpassed. by_validation.
Defined.
